(** * The space-battle-2 Python client: world model and command policy

    A shallow embedding of [sdks/python/client.py].  Each Python class is a
    module holding a record for the instance attributes and one definition
    per method; a method that mutates [self] returns the new [self].
    Python exceptions are values of [exn] carried by [result]. *)

From Stdlib Require Import ZArith String.
From stdpp Require Import gmap strings list.
From Stdlib Require Import Lia.
From stdpp Require Import sorting.

Local Open Scope string_scope.
Local Open Scope list_scope.
Local Open Scope Z_scope.

(** ** Exceptions and the values that come off the wire *)

(** The exceptions the client can raise on well-typed messages. *)
Inductive exn :=
| AttributeError (owner attr : string)
| TypeError (msg : string)
| IndexError (msg : string).

Inductive result (A : Type) :=
| Ok (a : A)
| Raise (e : exn).
Arguments Ok {A} a.
Arguments Raise {A} e.

(** What [json.loads] produces. *)
#[warnings="-register-all"]
Inductive json :=
| JNull
| JBool (b : bool)
| JNum (n : Z)
| JStr (s : string)
| JArr (l : list json)
| JObj (kv : list (string * json)).

(** Python truthiness of a decoded JSON value. *)
Definition json_truthy (j : json) : bool :=
  match j with
  | JNull => false
  | JBool b => b
  | JNum n => negb (n =? 0)
  | JStr s => negb (String.eqb s "")
  | JArr l => match l with [] => false | _ => true end
  | JObj kv => match kv with [] => false | _ => true end
  end.

(** [obj.get(key)] on a decoded JSON object. *)
Fixpoint json_get (kv : list (string * json)) (key : string) : option json :=
  match kv with
  | [] => None
  | (k, v) :: rest => if String.eqb k key then Some v else json_get rest key
  end.

(** Objects that answer [.x] and [.y]: [Unit] and [Tile] do, decoded JSON
    does not. *)
Class HasPosition (A : Type) := {
  get_x : A -> result Z;
  get_y : A -> result Z
}.

(** ** Wire records *)

(** A unit record of [unit_updates]; [resource] is the one optional key. *)
Module UnitData.
Record t := {
  id : Z;
  player_id : Z;
  x : Z;
  y : Z;
  type : string;
  status : string;
  health : Z;
  resource : option Z
}.
End UnitData.

(** ** class Unit *)
Module Unit.
Record t := {
  id : Z;
  player_id : Z;
  x : Z;
  y : Z;
  type : string;
  status : string;
  health : Z;
  resource : Z
}.

(** [Unit.__init__] *)
Definition init (unit_data : UnitData.t) : t :=
  {| id := UnitData.id unit_data;
     player_id := UnitData.player_id unit_data;
     x := UnitData.x unit_data;
     y := UnitData.y unit_data;
     type := UnitData.type unit_data;
     status := UnitData.status unit_data;
     health := UnitData.health unit_data;
     resource := default 0 (UnitData.resource unit_data) |}.

(** [Unit.update] *)
Definition update (self : t) (unit_data : UnitData.t) : t :=
  {| id := id self;
     player_id := player_id self;
     x := UnitData.x unit_data;
     y := UnitData.y unit_data;
     type := type self;
     status := UnitData.status unit_data;
     health := UnitData.health unit_data;
     resource := default (resource self) (UnitData.resource unit_data) |}.

(** [Unit.is_idle] *)
Definition is_idle (self : t) : bool := String.eqb (status self) "idle".
End Unit.

#[export] Instance Unit_position : HasPosition Unit.t :=
  {| get_x u := Ok (Unit.x u); get_y u := Ok (Unit.y u) |}.

(** An entry of a tile's [units] list.  [Tile.__init__] stores the list as
    it finds it under the key ['units']: decoded JSON when the record comes
    from [process_updates], [Unit] objects when a caller builds the record
    itself. *)
Inductive occupant :=
| OJson (j : json)
| OUnit (u : Unit.t).

Definition occupant_truthy (o : occupant) : bool :=
  match o with
  | OJson j => json_truthy j
  | OUnit _ => true
  end.

#[export] Instance occupant_position : HasPosition occupant :=
  {| get_x o := match o with
                | OUnit u => Ok (Unit.x u)
                | OJson _ => Raise (AttributeError "json" "x")
                end;
     get_y o := match o with
                | OUnit u => Ok (Unit.y u)
                | OJson _ => Raise (AttributeError "json" "y")
                end |}.

(** [o.id] on an entry of a tile's [units] list. *)
Definition occupant_id (o : occupant) : result Z :=
  match o with
  | OUnit u => Ok (Unit.id u)
  | OJson _ => Raise (AttributeError "json" "id")
  end.

(** A tile record of [tile_updates]; [None] is an omitted key. *)
Module TileData.
Record t := {
  x : Z;
  y : Z;
  visible : bool;
  blocked : bool;
  resources : option Z;
  units : option (list occupant)
}.
End TileData.

(** ** class Tile *)
Module Tile.
Record t := {
  x : Z;
  y : Z;
  visible : bool;
  blocked : bool;
  resources : option Z;
  units : list occupant
}.

(** [Tile.__init__] *)
Definition init (tile_data : TileData.t) : t :=
  {| x := TileData.x tile_data;
     y := TileData.y tile_data;
     visible := TileData.visible tile_data;
     blocked := TileData.blocked tile_data;
     resources := TileData.resources tile_data;
     units := default [] (TileData.units tile_data) |}.

(** [Tile.update]; no method of the client calls it. *)
Definition update (self : t) (tile_data : TileData.t) : t :=
  {| x := x self;
     y := y self;
     visible := TileData.visible tile_data;
     blocked := TileData.blocked tile_data;
     resources := match TileData.resources tile_data with
                  | Some r => Some r
                  | None => resources self
                  end;
     units := default (units self) (TileData.units tile_data) |}.

(** Truthiness of [tile.resources]: [None] and [0] are false. *)
Definition has_resources (self : t) : bool :=
  match resources self with
  | Some r => negb (r =? 0)
  | None => false
  end.

(** Truthiness of [tile.units]. *)
Definition has_units (self : t) : bool :=
  match units self with [] => false | _ => true end.
End Tile.

#[export] Instance Tile_position : HasPosition Tile.t :=
  {| get_x t := Ok (Tile.x t); get_y t := Ok (Tile.y t) |}.

(** ** Python dicts whose iteration order is observed

    [units_by_id.values()] is iterated by the policy, so the dict is an
    association list in insertion order; assigning to a key that is present
    keeps its place. *)
Section Dict.
Context {V : Type}.

Fixpoint dict_get (d : list (Z * V)) (k : Z) : option V :=
  match d with
  | [] => None
  | (k', v) :: rest => if k' =? k then Some v else dict_get rest k
  end.

Fixpoint dict_set (d : list (Z * V)) (k : Z) (v : V) : list (Z * V) :=
  match d with
  | [] => [(k, v)]
  | (k', v') :: rest =>
      if k' =? k then (k', v) :: rest else (k', v') :: dict_set rest k v
  end.

Definition dict_values (d : list (Z * V)) : list V := map snd d.
End Dict.

(** [range(n)] and [range(a, b)] over Python ints. *)
Definition range (n : Z) : list Z := map Z.of_nat (seq 0 (Z.to_nat n)).
Definition range2 (a b : Z) : list Z := map (fun i => a + i) (range (b - a)).

(** ** class World *)
Module World.
Record t := {
  units_by_id : list (Z * Unit.t);
  tiles : gmap (Z * Z) Tile.t
}.

(** [World.__init__] *)
Definition init : t := {| units_by_id := []; tiles := ∅ |}.

(** One iteration of the loop of [update_units]. *)
Definition update_unit (self : t) (unit_data : UnitData.t) : t :=
  let unit_id := UnitData.id unit_data in
  match dict_get (units_by_id self) unit_id with
  | Some u =>
      {| units_by_id := dict_set (units_by_id self) unit_id (Unit.update u unit_data);
         tiles := tiles self |}
  | None =>
      {| units_by_id := dict_set (units_by_id self) unit_id (Unit.init unit_data);
         tiles := tiles self |}
  end.

(** [World.update_units] *)
Definition update_units (self : t) (unit_updates : list UnitData.t) : t :=
  fold_left update_unit unit_updates self.

(** One iteration of the loop of [update_tiles]. *)
Definition update_tile (self : t) (tile_data : TileData.t) : t :=
  let tile_key := (TileData.x tile_data, TileData.y tile_data) in
  {| units_by_id := units_by_id self;
     tiles := <[tile_key := Tile.init tile_data]> (tiles self) |}.

(** [World.update_tiles] *)
Definition update_tiles (self : t) (tile_updates : list TileData.t) : t :=
  fold_left update_tile tile_updates self.

(** [World.get_tile] *)
Definition get_tile (self : t) (x y : Z) : option Tile.t :=
  tiles self !! (x, y).

(** [World.get_adjacent_resource_tile] *)
Definition get_adjacent_resource_tile (self : t) (unit : Unit.t) : option Tile.t :=
  let directions := [(0, -1); (0, 1); (-1, 0); (1, 0)] in
  let candidates :=
    omap (fun '(dx, dy) =>
            match get_tile self (Unit.x unit + dx) (Unit.y unit + dy) with
            | Some tile => if Tile.has_resources tile then Some tile else None
            | None => None
            end) directions in
  head candidates.
End World.

(** ** Commands and class CommandBuilder *)

(** The dict a command builder returns, with its three keys. *)
Module Command.
Record t := {
  command : string;
  unit : Z;
  dir : string
}.
End Command.

Module CommandBuilder.
Definition MOVE_COMMAND : string := "MOVE".
Definition GATHER_COMMAND : string := "GATHER".

(** [CommandBuilder.move] *)
Definition move (unit : Unit.t) (direction : string) : Command.t :=
  {| Command.command := MOVE_COMMAND;
     Command.unit := Unit.id unit;
     Command.dir := direction |}.

(** [CommandBuilder.gather] *)
Definition gather (unit : Unit.t) (direction : string) : Command.t :=
  {| Command.command := GATHER_COMMAND;
     Command.unit := Unit.id unit;
     Command.dir := direction |}.

(** The class has the two static methods above and nothing else: looking
    up [melee], [shoot] or [create] on it raises. *)
Definition no_attribute (name : string) : exn :=
  AttributeError "CommandBuilder" name.
End CommandBuilder.

(** ** The policy monad: exceptions and the random source

    [random.choice] is the only use of [random]; the generator is a list of
    draws, consumed one per call (0 once the list is used up). *)
Definition rng := list nat.
Definition M (A : Type) : Type := rng -> result (A * rng).

Definition ret {A} (a : A) : M A := fun r => Ok (a, r).
Definition bind {A B} (m : M A) (k : A -> M B) : M B :=
  fun r => match m r with
           | Ok (a, r') => k a r'
           | Raise e => Raise e
           end.
Definition lift {A} (v : result A) : M A :=
  fun r => match v with
           | Ok a => Ok (a, r)
           | Raise e => Raise e
           end.

Definition rbind {A B} (v : result A) (k : A -> result B) : result B :=
  match v with
  | Ok a => k a
  | Raise e => Raise e
  end.

Notation "'let*' x ':=' m 'in' k" := (bind m (fun x => k))
  (at level 10, x name, m at level 100, k at level 200).
Notation "'let?' x ':=' v 'in' k" := (rbind v (fun x => k))
  (at level 10, x name, v at level 100, k at level 200).

(** [for a in l: commands = body(a, commands)] *)
Fixpoint for_each {A C} (l : list A) (body : A -> C -> M C) (commands : C) : M C :=
  match l with
  | [] => ret commands
  | a :: rest => let* commands' := body a commands in for_each rest body commands'
  end.

(** [random.choice(seq)] *)
Definition random_choice {A} (seq : list A) : M A :=
  fun r =>
    match seq !! (hd 0%nat r mod length seq)%nat with
    | Some a => Ok (a, tl r)
    | None => Raise (IndexError "Cannot choose from an empty sequence")
    end.

(** [a and b] where evaluating [b] may raise. *)
Definition and_then (a : bool) (b : result bool) : result bool :=
  if a then b else Ok false.

(** [distance < min_distance], where [None] is [float('inf')]. *)
Definition lt_inf (distance : Z) (min_distance : option Z) : bool :=
  match min_distance with
  | None => true
  | Some m => distance <? m
  end.

(** The [game_info] object and one inbound message; every top-level key is
    optional. *)
Module GameInfo.
Record t := {
  map_width : Z;
  map_height : Z;
  unit_info : list (string * option Z)
}.
End GameInfo.

Module Message.
Record t := {
  game_info : option GameInfo.t;
  unit_updates : option (list UnitData.t);
  tile_updates : option (list TileData.t)
}.
End Message.

(** ** class Game *)
Module Game.
(** The attributes [__init__] sets, and [unit_costs], which exists only
    once a [game_info] message has been processed. *)
Record t := {
  world : World.t;
  base_location : option (Z * Z);
  resources : Z;
  map_width : Z;
  map_height : Z;
  unit_costs : option (list (string * Z))
}.

(** [Game.__init__] *)
Definition init : t :=
  {| world := World.init;
     base_location := None;
     resources := 0;
     map_width := 0;
     map_height := 0;
     unit_costs := None |}.

(** [self.worker_count], [self.scout_count], [self.tank_count]: no method
    and no class body assigns them, so reading one raises. *)
Definition no_attribute (name : string) : exn := AttributeError "Game" name.
Definition worker_count (self : t) : result Z := Raise (no_attribute "worker_count").
Definition scout_count (self : t) : result Z := Raise (no_attribute "scout_count").
Definition tank_count (self : t) : result Z := Raise (no_attribute "tank_count").

(** [Game.is_tile_blocked]: [tile and tile.blocked], as a truth value. *)
Definition is_tile_blocked (self : t) (x y : Z) : bool :=
  match World.get_tile (world self) x y with
  | Some tile => Tile.blocked tile
  | None => false
  end.

(** [Game.manhattan_distance] *)
Definition manhattan_distance (x1 y1 x2 y2 : Z) : Z :=
  Z.abs (x2 - x1) + Z.abs (y2 - y1).

(** [Game.find_nearest_resource] *)
Definition find_nearest_resource (self : t) (unit : Unit.t) : option Tile.t :=
  fst
    (fold_left
       (fun acc x =>
          fold_left
            (fun '(nearest_resource, min_distance) y =>
               match World.get_tile (world self) x y with
               | Some tile =>
                   if Tile.visible tile && Tile.has_resources tile
                      && negb (is_tile_blocked self x y)
                   then
                     let distance :=
                       manhattan_distance (Unit.x unit) (Unit.y unit) x y in
                     if lt_inf distance min_distance
                     then (Some tile, Some distance)
                     else (nearest_resource, min_distance)
                   else (nearest_resource, min_distance)
               | None => (nearest_resource, min_distance)
               end)
            (range (map_height self)) acc)
       (range (map_width self)) (None, None)).

(** [Game.is_adjacent]; the second argument is a tile in the worker rule
    and an entry of a tile's [units] in the tank rule. *)
Definition is_adjacent {A} `{HasPosition A} (unit : Unit.t) (tile : A) : result bool :=
  let? tx := get_x tile in
  let? ty := get_y tile in
  Ok (manhattan_distance (Unit.x unit) (Unit.y unit) tx ty =? 1).

(** The dict [vision_ranges] and its [get(unit.type, 2)]. *)
Definition vision_range (unit_type : string) : Z :=
  if String.eqb unit_type "worker" then 2
  else if String.eqb unit_type "scout" then 5
  else if String.eqb unit_type "tank" then 2
  else 2.

(** [Game.is_in_range] *)
Definition is_in_range {A} `{HasPosition A} (unit : Unit.t) (target : A) : result bool :=
  let? tx := get_x target in
  let? ty := get_y target in
  let distance := manhattan_distance (Unit.x unit) (Unit.y unit) tx ty in
  Ok (distance <=? vision_range (Unit.type unit)).

(** The body shared by the two direction methods. *)
Definition direction_of (dx dy : Z) : string :=
  if Z.abs dx >? Z.abs dy
  then (if dx >? 0 then "E" else "W")
  else (if dy >? 0 then "S" else "N").

(** [Game.get_direction_to_tile] *)
Definition get_direction_to_tile (unit : Unit.t) (tile : Tile.t) : string :=
  let dx := Tile.x tile - Unit.x unit in
  let dy := Tile.y tile - Unit.y unit in
  direction_of dx dy.

(** [Game.get_direction_to_coordinates] *)
Definition get_direction_to_coordinates (unit : Unit.t) (target_x target_y : Z) : string :=
  let dx := target_x - Unit.x unit in
  let dy := target_y - Unit.y unit in
  direction_of dx dy.

(** The dict [unit_costs] local to [can_afford]; [None] is the default
    [float('inf')] of its [get]. *)
Definition unit_cost (unit_type : string) : option Z :=
  if String.eqb unit_type "worker" then Some 100
  else if String.eqb unit_type "scout" then Some 130
  else if String.eqb unit_type "tank" then Some 150
  else None.

(** [Game.can_afford] *)
Definition can_afford (self : t) (unit_type : string) : bool :=
  match unit_cost unit_type with
  | Some cost => resources self >=? cost
  | None => false
  end.

(** [Game.find_nearest_enemy] *)
Definition find_nearest_enemy (self : t) (unit : Unit.t) : option occupant :=
  fst
    (fold_left
       (fun acc x =>
          fold_left
            (fun acc y =>
               match World.get_tile (world self) x y with
               | Some tile =>
                   if Tile.visible tile && Tile.has_units tile
                   then
                     fold_left
                       (fun '(nearest_enemy, min_distance) enemy =>
                          let distance :=
                            manhattan_distance (Unit.x unit) (Unit.y unit) x y in
                          if lt_inf distance min_distance
                          then (Some enemy, Some distance)
                          else (nearest_enemy, min_distance))
                       (Tile.units tile) acc
                   else acc
               | None => acc
               end)
            (range (map_height self)) acc)
       (range (map_width self)) (None, None)).

(** [Game.find_nearest_worker] *)
Definition find_nearest_worker (self : t) (unit : Unit.t) : option Unit.t :=
  fst
    (fold_left
       (fun '(nearest_worker, min_distance) other_unit =>
          if String.eqb (Unit.type other_unit) "worker"
             && negb (Unit.id other_unit =? Unit.id unit)
          then
            let distance :=
              manhattan_distance (Unit.x unit) (Unit.y unit)
                                 (Unit.x other_unit) (Unit.y other_unit) in
            if lt_inf distance min_distance
            then (Some other_unit, Some distance)
            else (nearest_worker, min_distance)
          else (nearest_worker, min_distance))
       (dict_values (World.units_by_id (world self))) (None, None)).

(** [weights[key] += delta] on the four-key dict [weights]. *)
Definition weights_add (weights : list (string * Z)) (key : string) (delta : Z)
  : list (string * Z) :=
  map (fun '(k, w) => if String.eqb k key then (k, w + delta) else (k, w)) weights.

(** [max(weights.values())] *)
Definition max_weight (weights : list (string * Z)) : Z :=
  match map snd weights with
  | [] => 0
  | w :: ws => fold_left Z.max ws w
  end.

(** [Game.get_strategic_exploration_direction] *)
Definition get_strategic_exploration_direction (self : t) (unit : Unit.t) : M string :=
  let weights := [("N", 0); ("S", 0); ("E", 0); ("W", 0)] in
  let weights :=
    fold_left
      (fun weights '(direction, (dx, dy)) =>
         fold_left
           (fun weights distance =>
              let x := Unit.x unit + dx * distance in
              let y := Unit.y unit + dy * distance in
              if (0 <=? x) && (x <? map_width self)
                 && (0 <=? y) && (y <? map_height self)
              then
                match World.get_tile (world self) x y with
                | Some tile =>
                    if negb (Tile.visible tile)
                    then weights_add weights direction (3 - distance)
                    else weights
                | None => weights_add weights direction (3 - distance)
                end
              else weights)
           (range2 1 4) weights)
      [("N", (0, -1)); ("S", (0, 1)); ("E", (1, 0)); ("W", (-1, 0))]
      weights in
  let weights :=
    match base_location self with
    | Some (bx, by_) =>
        if String.eqb (Unit.type unit) "scout"
        then
          let base_direction := get_direction_to_coordinates unit bx by_ in
          weights_add weights base_direction (-2)
        else weights
    | None => weights
    end in
  let max_weight := max_weight weights in
  let best_directions :=
    map fst (List.filter (fun '(d, w) => w =? max_weight) weights) in
  random_choice best_directions.

(** What [self.base_location[0]] raises while [base_location] is [None]. *)
Definition none_not_subscriptable : exn :=
  TypeError "'NoneType' object is not subscriptable".

(** Body of [for worker in idle_workers]. *)
Definition worker_body (self : t) (worker : Unit.t) (commands : list Command.t)
  : M (list Command.t) :=
  if Unit.resource worker >? 0
  then
    match base_location self with
    | Some (bx, by_) =>
        let direction := get_direction_to_coordinates worker bx by_ in
        ret (commands ++ [CommandBuilder.move worker direction])
    | None =>
        lift (Raise none_not_subscriptable)
    end
  else
    match find_nearest_resource self worker with
    | Some resource_tile =>
        let* adjacent := lift (is_adjacent worker resource_tile) in
        let direction := get_direction_to_tile worker resource_tile in
        if adjacent
        then ret (commands ++ [CommandBuilder.gather worker direction])
        else ret (commands ++ [CommandBuilder.move worker direction])
    | None =>
        let* direction := get_strategic_exploration_direction self worker in
        ret (commands ++ [CommandBuilder.move worker direction])
    end.

(** Body of [for scout in idle_scouts]. *)
Definition scout_body (self : t) (scout : Unit.t) (commands : list Command.t)
  : M (list Command.t) :=
  let* direction := get_strategic_exploration_direction self scout in
  ret (commands ++ [CommandBuilder.move scout direction]).

(** The [else] branch of the tank rule: patrol near workers. *)
Definition tank_patrol (self : t) (tank : Unit.t) (commands : list Command.t)
  : list Command.t :=
  match find_nearest_worker self tank with
  | Some worker =>
      let direction :=
        get_direction_to_coordinates tank (Unit.x worker) (Unit.y worker) in
      commands ++ [CommandBuilder.move tank direction]
  | None => commands
  end.

(** Body of [for tank in idle_tanks]. *)
Definition tank_body (self : t) (tank : Unit.t) (commands : list Command.t)
  : M (list Command.t) :=
  match find_nearest_enemy self tank with
  | Some enemy =>
      let* engage :=
        lift (and_then (occupant_truthy enemy) (is_in_range tank enemy)) in
      if engage
      then
        let* adjacent := lift (is_adjacent tank enemy) in
        if adjacent
        then lift (Raise (CommandBuilder.no_attribute "melee"))
        else
          let* ex := lift (get_x enemy) in
          let* ey := lift (get_y enemy) in
          let dx := ex - Unit.x tank in
          let dy := ey - Unit.y tank in
          lift (Raise (CommandBuilder.no_attribute "shoot"))
      else ret (tank_patrol self tank commands)
  | None => ret (tank_patrol self tank commands)
  end.

(** The unit creation [if]/[elif] chain that ends [get_commands]. *)
Definition create_units (self : t) (commands : list Command.t)
  : result (list Command.t) :=
  let base_known := bool_decide (is_Some (base_location self)) in
  let? create_worker :=
    and_then (base_known && can_afford self "worker")
             (let? n := worker_count self in Ok (n <? 5)) in
  if create_worker
  then Raise (CommandBuilder.no_attribute "create")
  else
    let? create_scout :=
      and_then (base_known && can_afford self "scout")
               (let? n := scout_count self in Ok (n <? 2)) in
    if create_scout
    then Raise (CommandBuilder.no_attribute "create")
    else
      let? create_tank :=
        and_then (base_known && can_afford self "tank")
                 (let? n := tank_count self in Ok (n <? 3)) in
      if create_tank
      then Raise (CommandBuilder.no_attribute "create")
      else Ok commands.

(** The idle units of one type, in the order of [units_by_id.values()]. *)
Definition idle_units (self : t) (unit_type : string) : list Unit.t :=
  List.filter
    (fun unit => Unit.is_idle unit && String.eqb (Unit.type unit) unit_type)
    (dict_values (World.units_by_id (world self))).

(** [Game.get_commands] *)
Definition get_commands (self : t) : M (list Command.t) :=
  let idle_workers := idle_units self "worker" in
  let idle_scouts := idle_units self "scout" in
  let idle_tanks := idle_units self "tank" in
  let* commands := for_each idle_workers (worker_body self) [] in
  let* commands := for_each idle_scouts (scout_body self) commands in
  let* commands := for_each idle_tanks (tank_body self) commands in
  lift (create_units self commands).

(** The three update steps of [process_updates], before [get_commands]. *)
Definition apply_game_info (self : t) (json_data : Message.t) : t :=
  match Message.game_info json_data with
  | Some info =>
      {| world := world self;
         base_location := base_location self;
         resources := resources self;
         map_width := GameInfo.map_width info;
         map_height := GameInfo.map_height info;
         unit_costs :=
           Some (omap (fun '(unit_type, cost) =>
                         match cost with
                         | Some c => Some (unit_type, c)
                         | None => None
                         end) (GameInfo.unit_info info)) |}
  | None => self
  end.

Definition track_base (base : option (Z * Z)) (unit : UnitData.t) : option (Z * Z) :=
  if String.eqb (UnitData.type unit) "base"
  then Some (UnitData.x unit, UnitData.y unit)
  else base.

Definition apply_unit_updates (self : t) (json_data : Message.t) : t :=
  match Message.unit_updates json_data with
  | Some unit_updates =>
      {| world := World.update_units (world self) unit_updates;
         base_location := fold_left track_base unit_updates (base_location self);
         resources := resources self;
         map_width := map_width self;
         map_height := map_height self;
         unit_costs := unit_costs self |}
  | None => self
  end.

Definition apply_tile_updates (self : t) (json_data : Message.t) : t :=
  match Message.tile_updates json_data with
  | Some tile_updates =>
      {| world := World.update_tiles (world self) tile_updates;
         base_location := base_location self;
         resources := resources self;
         map_width := map_width self;
         map_height := map_height self;
         unit_costs := unit_costs self |}
  | None => self
  end.

Definition absorb (self : t) (json_data : Message.t) : t :=
  apply_tile_updates (apply_unit_updates (apply_game_info self json_data) json_data)
                     json_data.

(** [Game.process_updates]: the session after the message, and the command
    list that is serialised into the reply (or the exception). *)
Definition process_updates (self : t) (json_data : Message.t) (r : rng)
  : t * result (list Command.t * rng) :=
  let self' := absorb self json_data in
  (self', get_commands self' r).
End Game.

(** ** class NetworkHandler *)
Module NetworkHandler.
(** The loop of [handle] over the lines that arrive, from a given session:
    the session at the end, the replies written, and the exception that
    ended the loop if one was raised. *)
Fixpoint serve (game : Game.t) (lines : list Message.t) (r : rng)
  : Game.t * list (list Command.t) * option exn :=
  match lines with
  | [] => (game, [], None)
  | json_data :: rest =>
      match Game.process_updates game json_data r with
      | (game', Ok (response, r')) =>
          let '(final, replies, e) := serve game' rest r' in
          (final, response :: replies, e)
      | (game', Raise e) => (game', [], Some e)
      end
  end.

(** [NetworkHandler.handle] *)
Definition handle (lines : list Message.t) (r : rng)
  : Game.t * list (list Command.t) * option exn :=
  serve Game.init lines r.
End NetworkHandler.

(** ** The direction rule as the specification words it *)

(** E if |dx| > |dy| and dx > 0, W if |dx| > |dy| and dx < 0, S if
    |dx| <= |dy| and dy > 0, and N otherwise. *)
Definition direction_towards_spec (dx dy : Z) : string :=
  if (Z.abs dx >? Z.abs dy) && (dx >? 0) then "E"
  else if (Z.abs dx >? Z.abs dy) && (dx <? 0) then "W"
  else if (Z.abs dx <=? Z.abs dy) && (dy >? 0) then "S"
  else "N".

(** ** Reading commands and tile entries *)

Definition is_create (c : Command.t) : bool :=
  String.eqb (Command.command c) "CREATE".

Definition is_move (c : Command.t) : bool :=
  String.eqb (Command.command c) "MOVE".

Definition is_melee (c : Command.t) : bool :=
  String.eqb (Command.command c) "MELEE".

Definition is_shoot (c : Command.t) : bool :=
  String.eqb (Command.command c) "SHOOT".

(** The owner a tile entry reports: the attribute of a [Unit], the key
    ['player_id'] of a decoded record. *)
Definition occupant_player_id (o : occupant) : option Z :=
  match o with
  | OUnit u => Some (Unit.player_id u)
  | OJson (JObj kv) =>
      match json_get kv "player_id" with
      | Some (JNum n) => Some n
      | _ => None
      end
  | OJson _ => None
  end.

(** The id a tile entry reports. *)
Definition occupant_unit_id (o : occupant) : option Z :=
  match o with
  | OUnit u => Some (Unit.id u)
  | OJson (JObj kv) =>
      match json_get kv "id" with
      | Some (JNum n) => Some n
      | _ => None
      end
  | OJson _ => None
  end.

(** [game.resources = n], done by hand: no method assigns the attribute. *)
Definition with_resources (self : Game.t) (n : Z) : Game.t :=
  {| Game.world := Game.world self;
     Game.base_location := Game.base_location self;
     Game.resources := n;
     Game.map_width := Game.map_width self;
     Game.map_height := Game.map_height self;
     Game.unit_costs := Game.unit_costs self |}.

(** ** Scenarios *)
Module Scenario.
Definition unit_record (id player_id x y : Z) (type status : string)
           (resource : option Z) : UnitData.t :=
  {| UnitData.id := id; UnitData.player_id := player_id;
     UnitData.x := x; UnitData.y := y;
     UnitData.type := type; UnitData.status := status;
     UnitData.health := 10; UnitData.resource := resource |}.

Definition tile_record (x y : Z) (visible blocked : bool)
           (resources : option Z) (units : option (list occupant)) : TileData.t :=
  {| TileData.x := x; TileData.y := y;
     TileData.visible := visible; TileData.blocked := blocked;
     TileData.resources := resources; TileData.units := units |}.

Definition message (info : option GameInfo.t) (units : option (list UnitData.t))
           (tiles : option (list TileData.t)) : Message.t :=
  {| Message.game_info := info;
     Message.unit_updates := units;
     Message.tile_updates := tiles |}.

(** The first message of a match on a 10 x 10 map where a worker costs 100. *)
Definition game_info_10 : GameInfo.t :=
  {| GameInfo.map_width := 10; GameInfo.map_height := 10;
     GameInfo.unit_info := [("worker", Some 100)] |}.

Definition base_at_origin : UnitData.t := unit_record 1 1 0 0 "base" "idle" None.

(** A decoded record of unit 7 of player 1, as a tile lists it. *)
Definition entry_7 : occupant :=
  OJson (JObj [("id", JNum 7); ("player_id", JNum 1); ("type", JStr "tank");
               ("status", JStr "idle"); ("health", JNum 10)]).

(** Tile (2,3) seen with 50 resources and unit 7 on it, then reported
    again with only the mandatory keys. *)
Definition tile_full : TileData.t :=
  tile_record 2 3 true false (Some 50) (Some [entry_7]).
Definition tile_bare : TileData.t :=
  tile_record 2 3 false true None None.

(** An idle worker of player 1 at (3,3) carrying 5, no base seen. *)
Definition laden_worker : UnitData.t := unit_record 2 1 3 3 "worker" "idle" (Some 5).
Definition worker_no_base : Message.t := message None (Some [laden_worker]) None.

(** The same worker with the base of player 1 at (0,0). *)
Definition worker_with_base : Message.t :=
  message (Some game_info_10) (Some [base_at_origin; laden_worker]) None.

(** An idle tank of player 1 at (0,0) and a unit of player 2 reported on
    the visible tile (1,0). *)
Definition tank_7 : UnitData.t := unit_record 7 1 0 0 "tank" "idle" None.
Definition enemy_entry : occupant :=
  OJson (JObj [("id", JNum 9); ("player_id", JNum 2); ("x", JNum 1); ("y", JNum 0);
               ("type", JStr "tank"); ("status", JStr "idle"); ("health", JNum 10)]).
Definition tank_meets_enemy : Message.t :=
  message (Some game_info_10) (Some [base_at_origin; tank_7])
          (Some [tile_record 1 0 true false None (Some [enemy_entry])]).

(** The same meeting with the tile entry built as a [Unit] object. *)
Definition enemy_unit : Unit.t := Unit.init (unit_record 9 2 1 0 "tank" "idle" None).
Definition tank_meets_enemy_unit : Message.t :=
  message (Some game_info_10) (Some [base_at_origin; tank_7])
          (Some [tile_record 1 0 true false None (Some [OUnit enemy_unit])]).

(** Tank 7 reported on its own visible tile (0,0). *)
Definition tank_on_own_tile : Message.t :=
  message (Some game_info_10) (Some [tank_7])
          (Some [tile_record 0 0 true false None (Some [entry_7])]).

(** Game info and the base, nothing else. *)
Definition opening : Message.t :=
  message (Some game_info_10) (Some [base_at_origin]) None.
End Scenario.

(** ** What a policy loop may do to the command list *)

(** The commands [CommandBuilder] can build. *)
Definition unit_order (c : Command.t) : Prop :=
  Command.command c = "MOVE" \/ Command.command c = "GATHER".

(** [commands'] is [commands] with unit orders appended. *)
Definition grows (commands commands' : list Command.t) : Prop :=
  exists suffix, commands' = commands ++ suffix /\ Forall unit_order suffix.

(** ** Directions as offsets *)

(** The offset of each direction, as the dict of
    [get_strategic_exploration_direction] and the list of
    [get_adjacent_resource_tile] give it. *)
Definition direction_offset (direction : string) : Z * Z :=
  if String.eqb direction "N" then (0, -1)
  else if String.eqb direction "S" then (0, 1)
  else if String.eqb direction "E" then (1, 0)
  else if String.eqb direction "W" then (-1, 0)
  else (0, 0).

(** The position one step from (x, y) in a direction. *)
Definition step (x y : Z) (direction : string) : Z * Z :=
  (x + fst (direction_offset direction), y + snd (direction_offset direction)).

(** ** The nearest-candidate scan shared by the three searches *)
Section Nearest.
Context {A : Type}.

(** One comparison [if distance < min_distance] and its two assignments. *)
Definition keep_nearer (acc : option A * option Z) (c : A * Z) : option A * option Z :=
  if lt_inf (snd c) (snd acc) then (Some (fst c), Some (snd c)) else acc.

(** The scan over candidates paired with their distances. *)
Definition nearest_of (candidates : list (A * Z)) : option A * option Z :=
  fold_left keep_nearer candidates (None, None).
End Nearest.

(** The order in which the two loops [for x in range(map_width)] and
    [for y in range(map_height)] visit coordinates: strictly earlier, and
    earlier or the same. *)
Definition scan_before (p q : Z * Z) : Prop :=
  fst p < fst q \/ (fst p = fst q /\ snd p < snd q).

Definition scan_not_after (p q : Z * Z) : Prop :=
  fst p < fst q \/ (fst p = fst q /\ snd p <= snd q).

(** The same order on candidates that carry their coordinate. *)
Definition site_order {T} (c c' : Z * Z * T) : Prop :=
  scan_not_after (fst c) (fst c').

(** A coordinate of the map that [find_nearest_resource] accepts. *)
Definition resource_site (g : Game.t) (x y : Z) (t : Tile.t) : Prop :=
  0 <= x < Game.map_width g /\ 0 <= y < Game.map_height g
  /\ World.get_tile (Game.world g) x y = Some t
  /\ Tile.visible t = true /\ Tile.has_resources t = true /\ Tile.blocked t = false.

(** The accepted coordinates in the order the two loops visit them. *)
Definition resource_sites (g : Game.t) : list (Z * Z * Tile.t) :=
  flat_map
    (fun x =>
       flat_map
         (fun y =>
            match World.get_tile (Game.world g) x y with
            | Some t =>
                if Tile.visible t && Tile.has_resources t
                   && negb (Game.is_tile_blocked g x y)
                then [(x, y, t)] else []
            | None => []
            end)
         (range (Game.map_height g)))
    (range (Game.map_width g)).



(** The units [find_nearest_worker] compares for a unit: the workers with
    another id. *)
Definition other_workers (g : Game.t) (unit : Unit.t) : list Unit.t :=
  List.filter
    (fun other_unit =>
       String.eqb (Unit.type other_unit) "worker"
       && negb (Unit.id other_unit =? Unit.id unit))
    (dict_values (World.units_by_id (Game.world g))).

(** Distance from a unit to a coordinate and to another unit. *)
Definition distance_to (unit : Unit.t) (x y : Z) : Z :=
  Game.manhattan_distance (Unit.x unit) (Unit.y unit) x y.

(** ** Invariants of the world model *)

(** Every tile is stored under its own coordinates. *)
Definition tiles_keyed (w : World.t) : Prop :=
  forall x y t, World.get_tile w x y = Some t -> Tile.x t = x /\ Tile.y t = y.

(** Every unit is stored under its own id. *)
Definition units_keyed (w : World.t) : Prop :=
  forall k u, dict_get (World.units_by_id w) k = Some u -> Unit.id u = k.

(** Whether a result is a value. *)
Definition is_ok {A} (v : result A) : bool :=
  match v with Ok _ => true | Raise _ => false end.

(** The last element of a list that passes a test. *)
Definition last_where {A} (p : A -> bool) (l : list A) : option A :=
  fold_left (fun acc a => if p a then Some a else acc) l None.

(** What a run of records for one id makes of the unit stored under it:
    the first record creates the unit if there is none, every other one
    updates it. *)
Definition merge_records (stored : option Unit.t) (records : list UnitData.t)
  : option Unit.t :=
  fold_left
    (fun stored d =>
       Some (match stored with
             | Some u => Unit.update u d
             | None => Unit.init d
             end))
    records stored.

(** The ids a batch mentions that a dict does not hold yet, each once, in
    the order of their first mention. *)
Fixpoint new_ids (known : list Z) (batch : list UnitData.t) : list Z :=
  match batch with
  | [] => []
  | d :: rest =>
      if existsb (Z.eqb (UnitData.id d)) known
      then new_ids known rest
      else UnitData.id d :: new_ids (known ++ [UnitData.id d]) rest
  end.

(** ** When a turn raises *)

(** The worker rule subscripts [base_location] for a worker that carries
    something; that raises while no base is known. *)
Definition worker_fails (g : Game.t) (worker : Unit.t) : bool :=
  (Unit.resource worker >? 0) && negb (bool_decide (is_Some (Game.base_location g))).

(** The tank rule reaches [target.x] on a decoded record, or one of the
    missing builders on a [Unit] in range, when its nearest enemy is truthy. *)
Definition tank_fails (g : Game.t) (tank : Unit.t) : bool :=
  match Game.find_nearest_enemy g tank with
  | Some enemy =>
      occupant_truthy enemy
      && match enemy with
         | OJson _ => true
         | OUnit u =>
             distance_to tank (Unit.x u) (Unit.y u) <=? Game.vision_range (Unit.type tank)
         end
  | None => false
  end.

(** The creation chain reads [worker_count] once the base is known and a
    worker is affordable. *)
Definition creation_fails (g : Game.t) : bool :=
  bool_decide (is_Some (Game.base_location g)) && (Game.resources g >=? 100).

(** Whether the patrol branch of the tank rule finds a worker to follow. *)
Definition tank_follows (g : Game.t) (tank : Unit.t) : bool :=
  match Game.find_nearest_worker g tank with
  | Some _ => true
  | None => false
  end.

(** ** Exploration *)

(** The test of the look-ahead loop: the coordinate is on the map and its
    tile is unknown or not visible. *)
Definition unexplored (g : Game.t) (x y : Z) : bool :=
  (0 <=? x) && (x <? Game.map_width g) && (0 <=? y) && (y <? Game.map_height g)
  && match World.get_tile (Game.world g) x y with
     | Some tile => negb (Tile.visible tile)
     | None => true
     end.

(** Nothing passes that test one or two steps from the unit in any of the
    four directions. *)
Definition nothing_unexplored_near (g : Game.t) (unit : Unit.t) : Prop :=
  forall dx dy distance,
    In (dx, dy) [(0, -1); (0, 1); (1, 0); (-1, 0)] ->
    In distance [1; 2] ->
    unexplored g (Unit.x unit + dx * distance) (Unit.y unit + dy * distance) = false.



(** Unfolding the monad operations in goal and hypotheses. *)
Ltac unfold_monad := unfold bind, lift, ret, rbind, and_then in *.

Create HintDb policy.

(** * Properties *)

(** ** The insertion-ordered dict *)
Section DictFacts.
Context {V : Type}.
Implicit Types (d : list (Z * V)) (k : Z) (v : V).

Lemma dict_get_set_eq d k v : dict_get (dict_set d k v) k = Some v.
Proof.
  induction d as [|[k' v'] d IH]; simpl.
  - now rewrite Z.eqb_refl.
  - destruct (k' =? k) eqn:E; simpl; rewrite E; auto.
Qed.

Lemma dict_get_set_ne d k k' v :
  k <> k' -> dict_get (dict_set d k v) k' = dict_get d k'.
Proof.
  intros Hne. induction d as [|[k0 v0] d IH]; simpl.
  - destruct (k =? k') eqn:E; auto. apply Z.eqb_eq in E. contradiction.
  - destruct (k0 =? k) eqn:E; simpl.
    + apply Z.eqb_eq in E. subst k0.
      destruct (k =? k') eqn:E'; auto. apply Z.eqb_eq in E'. contradiction.
    + now rewrite IH.
Qed.
End DictFacts.

(** ** Merging unit records *)

Lemma update_unit_tiles w d : World.tiles (World.update_unit w d) = World.tiles w.
Proof. unfold World.update_unit. now destruct (dict_get _ _). Qed.

(** An update for the id replaces the stored unit by its [Unit.update]. *)
Lemma update_unit_same w d u :
  dict_get (World.units_by_id w) (UnitData.id d) = Some u ->
  dict_get (World.units_by_id (World.update_unit w d)) (UnitData.id d)
  = Some (Unit.update u d).
Proof.
  intros H. unfold World.update_unit. rewrite H. simpl. apply dict_get_set_eq.
Qed.

(** An update for another id leaves the stored unit alone. *)
Lemma update_unit_other w d k :
  UnitData.id d <> k ->
  dict_get (World.units_by_id (World.update_unit w d)) k
  = dict_get (World.units_by_id w) k.
Proof.
  intros H. unfold World.update_unit.
  destruct (dict_get (World.units_by_id w) (UnitData.id d));
    simpl; now apply dict_get_set_ne.
Qed.

(** Batches applied turn after turn are one long batch. *)
Lemma update_units_turns w (turns : list (list UnitData.t)) :
  fold_left World.update_units turns w = World.update_units w (concat turns).
Proof.
  revert w. induction turns as [|b turns IH]; intros w; simpl; auto.
  rewrite IH. unfold World.update_units. now rewrite fold_left_app.
Qed.

(** What a batch does to a unit that is already known. *)
Lemma update_units_known (batch : list UnitData.t) :
  forall w k u,
    dict_get (World.units_by_id w) k = Some u ->
    exists u',
      dict_get (World.units_by_id (World.update_units w batch)) k = Some u'
      /\ Unit.id u' = Unit.id u
      /\ Unit.player_id u' = Unit.player_id u
      /\ (Forall (fun d => UnitData.id d = k -> UnitData.resource d = None) batch ->
          Unit.resource u' = Unit.resource u).
Proof.
  induction batch as [|d batch IH]; intros w k u Hk.
  - exists u. simpl. auto.
  - simpl. destruct (Z.eq_dec (UnitData.id d) k) as [Heq|Hne].
    + subst k.
      destruct (IH _ _ _ (update_unit_same w d u Hk)) as (u' & Hget & Hid & Hpl & Hres).
      exists u'. repeat split; auto.
      intros Hall. inversion Hall as [|? ? Hd Hrest]; subst.
      rewrite (Hres Hrest). simpl. now rewrite (Hd eq_refl).
    + assert (Hk' : dict_get (World.units_by_id (World.update_unit w d)) k = Some u)
        by (rewrite update_unit_other; auto).
      destruct (IH _ _ _ Hk') as (u' & Hget & Hid & Hpl & Hres).
      exists u'. repeat split; auto.
      intros Hall. inversion Hall; subst. auto.
Qed.

(** C5: across any sequence of update batches, a unit that is known keeps
    its id and its player_id, and keeps its carried resource as long as the
    records for its id omit the [resource] key; a single record that omits
    the key leaves the last known resource in place. *)
Theorem unit_merge_keeps_identity_and_resource
        (w : World.t) (turns : list (list UnitData.t)) (k : Z) (u : Unit.t) :
  dict_get (World.units_by_id w) k = Some u ->
  (exists u',
      dict_get (World.units_by_id (fold_left World.update_units turns w)) k = Some u'
      /\ Unit.id u' = Unit.id u
      /\ Unit.player_id u' = Unit.player_id u
      /\ (Forall (fun d => UnitData.id d = k -> UnitData.resource d = None)
                 (concat turns) ->
          Unit.resource u' = Unit.resource u))
  /\ (forall d,
         UnitData.id d = k ->
         exists u',
           dict_get (World.units_by_id (World.update_units w [d])) k = Some u'
           /\ Unit.id u' = Unit.id u
           /\ Unit.player_id u' = Unit.player_id u
           /\ Unit.resource u' = default (Unit.resource u) (UnitData.resource d)).
Proof.
  intros Hk. split.
  - rewrite update_units_turns. now apply update_units_known.
  - intros d Hd. subst k. exists (Unit.update u d). simpl.
    rewrite (update_unit_same w d u Hk). auto.
Qed.

(** A worker first reported carrying 8, then reported twice without the
    key, still carries 8 and is still unit 2 of player 1. *)
Lemma unit_merge_keeps_identity_and_resource_witness :
  let first := Scenario.unit_record 2 1 3 3 "worker" "idle" (Some 8) in
  let later := Scenario.unit_record 2 1 4 3 "worker" "busy" None in
  let w := World.update_units World.init [first] in
  exists u',
    dict_get (World.units_by_id (fold_left World.update_units [[later]; [later]] w)) 2
    = Some u'
    /\ Unit.id u' = 2 /\ Unit.player_id u' = 1 /\ Unit.resource u' = 8.
Proof.
  intros first later w.
  destruct (unit_merge_keeps_identity_and_resource
              w [[later]; [later]] 2 (Unit.init first) eq_refl)
    as [(u' & Hget & Hid & Hpl & Hres) _].
  exists u'. repeat split; auto.
  apply Hres. repeat constructor.
Defined.

(** ** Directions *)

Lemma direction_of_spec dx dy : Game.direction_of dx dy = direction_towards_spec dx dy.
Proof.
  unfold Game.direction_of, direction_towards_spec.
  destruct (Z.abs dx >? Z.abs dy) eqn:Habs; simpl.
  - destruct (dx >? 0) eqn:Hpos; auto.
    destruct (dx <? 0) eqn:Hneg; auto.
    apply Z.gtb_lt in Habs. lia.
  - assert (Hle : (Z.abs dx <=? Z.abs dy) = true).
    { apply Z.leb_le. rewrite Z.gtb_ltb in Habs. apply Z.ltb_ge in Habs. lia. }
    rewrite Hle. simpl. now destruct (dy >? 0).
Qed.

(** C7: both direction methods follow the four-case rule on
    (dx, dy) = target - unit, and answer N when the target is the unit's own
    position. *)
Theorem direction_methods_follow_rule (unit : Unit.t) (tile : Tile.t) (target_x target_y : Z) :
  Game.get_direction_to_coordinates unit target_x target_y
  = direction_towards_spec (target_x - Unit.x unit) (target_y - Unit.y unit)
  /\ Game.get_direction_to_tile unit tile
     = direction_towards_spec (Tile.x tile - Unit.x unit) (Tile.y tile - Unit.y unit)
  /\ Game.get_direction_to_coordinates unit (Unit.x unit) (Unit.y unit) = "N"
  /\ direction_towards_spec 0 0 = "N".
Proof.
  unfold Game.get_direction_to_coordinates, Game.get_direction_to_tile.
  repeat split; try apply direction_of_spec.
  rewrite !Z.sub_diag. reflexivity.
Qed.

(** ** Tiles *)

Lemma update_tile_lookup w d :
  World.get_tile (World.update_tile w d) (TileData.x d) (TileData.y d)
  = Some (Tile.init d).
Proof. unfold World.get_tile, World.update_tile. simpl. apply lookup_insert_eq. Qed.

(** What the unused [Tile.update] would keep: the omitted fields. *)
Lemma tile_update_method_retains (t : Tile.t) (d : TileData.t) :
  TileData.resources d = None -> TileData.units d = None ->
  Tile.resources (Tile.update t d) = Tile.resources t
  /\ Tile.units (Tile.update t d) = Tile.units t
  /\ Tile.visible (Tile.update t d) = TileData.visible d
  /\ Tile.blocked (Tile.update t d) = TileData.blocked d.
Proof. intros Hr Hu. unfold Tile.update. simpl. rewrite Hr, Hu. auto. Qed.

(** C1 at tile (2,3): stored with 50 resources and one unit, then updated
    by a record with only the mandatory keys.  [update_tiles] stores a tile
    with no resources and no units; [visible] and [blocked] are the new
    record's.  [Tile.update] on the same pair keeps the 50 and the unit. *)
Theorem update_tiles_drops_omitted_fields :
  let w1 := World.update_tiles World.init [Scenario.tile_full] in
  let w2 := World.update_tiles w1 [Scenario.tile_bare] in
  (exists t1, World.get_tile w1 2 3 = Some t1
              /\ Tile.resources t1 = Some 50
              /\ Tile.units t1 = [Scenario.entry_7])
  /\ (exists t2, World.get_tile w2 2 3 = Some t2
                 /\ Tile.resources t2 = None
                 /\ Tile.units t2 = []
                 /\ Tile.visible t2 = false
                 /\ Tile.blocked t2 = true)
  /\ Tile.resources (Tile.update (Tile.init Scenario.tile_full) Scenario.tile_bare)
     = Some 50
  /\ Tile.units (Tile.update (Tile.init Scenario.tile_full) Scenario.tile_bare)
     = [Scenario.entry_7].
Proof.
  intros w1 w2. split; [|split; [|split]].
  - exists (Tile.init Scenario.tile_full).
    split; [apply (update_tile_lookup World.init Scenario.tile_full)|].
    split; reflexivity.
  - exists (Tile.init Scenario.tile_bare).
    split; [apply (update_tile_lookup w1 Scenario.tile_bare)|].
    repeat split.
  - reflexivity.
  - reflexivity.
Qed.

(** ** The stockpile *)

Lemma absorb_resources g m : Game.resources (Game.absorb g m) = Game.resources g.
Proof.
  unfold Game.absorb, Game.apply_tile_updates, Game.apply_unit_updates,
    Game.apply_game_info.
  destruct (Message.game_info m), (Message.unit_updates m), (Message.tile_updates m);
    reflexivity.
Qed.

Lemma serve_resources lines :
  forall g r, Game.resources (fst (fst (NetworkHandler.serve g lines r))) = Game.resources g.
Proof.
  induction lines as [|m lines IH]; intros g r; simpl; auto.
  destruct (Game.get_commands (Game.absorb g m) r) as [[response r']|e] eqn:E; simpl.
  - specialize (IH (Game.absorb g m) r').
    destruct (NetworkHandler.serve (Game.absorb g m) lines r') as [[final replies] e'].
    simpl in *. rewrite IH. apply absorb_resources.
  - apply absorb_resources.
Qed.

Lemma cannot_afford_below_100 g unit_type :
  Game.resources g < 100 -> Game.can_afford g unit_type = false.
Proof.
  intros H. unfold Game.can_afford, Game.unit_cost.
  repeat match goal with
         | |- context [String.eqb ?a ?b] => destruct (String.eqb a b)
         end; auto; rewrite Z.geb_leb; apply Z.leb_gt; lia.
Qed.

(** C10: [process_updates] leaves [resources] as it found it, so in a
    session started by [Game()] it is 0 after every message, and
    [can_afford] is false for worker, scout and tank. *)
Theorem stockpile_stays_zero (lines : list Message.t) (r : rng) :
  (forall g m r0, Game.resources (fst (Game.process_updates g m r0)) = Game.resources g)
  /\ Game.resources (fst (fst (NetworkHandler.handle lines r))) = 0
  /\ Game.can_afford (fst (fst (NetworkHandler.handle lines r))) "worker" = false
  /\ Game.can_afford (fst (fst (NetworkHandler.handle lines r))) "scout" = false
  /\ Game.can_afford (fst (fst (NetworkHandler.handle lines r))) "tank" = false.
Proof.
  assert (H0 : Game.resources (fst (fst (NetworkHandler.handle lines r))) = 0)
    by apply (serve_resources lines Game.init r).
  split; [intros g m r0; apply absorb_resources|].
  split; [exact H0|].
  repeat split; apply cannot_afford_below_100; rewrite H0; lia.
Qed.

(** ** The exploration direction is always defined *)

Lemma fold_left_invariant {A B} (P : A -> Prop) (f : A -> B -> A) (l : list B) :
  forall a, P a -> (forall a b, P a -> P (f a b)) -> P (fold_left f l a).
Proof.
  induction l as [|b l IH]; intros a Ha Hstep; simpl; auto.
Qed.

Lemma weights_add_keys weights key delta :
  map fst (Game.weights_add weights key delta) = map fst weights.
Proof.
  unfold Game.weights_add. induction weights as [|[k w] ws IH]; simpl; auto.
  rewrite IH. now destruct (String.eqb k key).
Qed.

Lemma fold_max_in (ws : list Z) : forall w, In (fold_left Z.max ws w) (w :: ws).
Proof.
  induction ws as [|w' ws IH]; intros w; simpl.
  - now left.
  - destruct (IH (Z.max w w')) as [H|H].
    + rewrite <- H.
      destruct (Z.max_spec w w') as [[_ E]|[_ E]]; rewrite E; auto.
    + auto.
Qed.

Lemma best_directions_nonempty (weights : list (string * Z)) :
  weights <> [] ->
  map fst (List.filter (fun '(d, w) => w =? Game.max_weight weights) weights) <> [].
Proof.
  intros Hne.
  assert (Hin : In (Game.max_weight weights) (map snd weights)).
  { unfold Game.max_weight. destruct weights as [|[d w] ws]; [congruence|].
    simpl. apply fold_max_in. }
  apply in_map_iff in Hin. destruct Hin as ([d w] & Hw & Hin). simpl in Hw.
  assert (Hf : In (d, w) (List.filter (fun '(d, w) => w =? Game.max_weight weights) weights)).
  { apply filter_In. split; auto. subst w. apply Z.eqb_refl. }
  intros Hnil. apply map_eq_nil in Hnil. rewrite Hnil in Hf. inversion Hf.
Qed.

Lemma random_choice_nonempty {A} (seq : list A) (r : rng) :
  seq <> [] -> exists a, random_choice seq r = Ok (a, tl r) /\ In a seq.
Proof.
  intros Hne. unfold random_choice.
  assert (Hlt : (hd 0%nat r mod length seq < length seq)%nat).
  { apply Nat.mod_upper_bound. destruct seq; simpl; [congruence|lia]. }
  apply lookup_lt_is_Some_2 in Hlt. destruct Hlt as [a Ha].
  exists a. rewrite Ha. split; auto.
  apply list_elem_of_In. eapply list_elem_of_lookup_2. exact Ha.
Qed.

(** [get_strategic_exploration_direction] raises nothing, uses one draw and
    answers one of the four directions. *)
Lemma exploration_direction_total (g : Game.t) (u : Unit.t) (r : rng) :
  exists d, Game.get_strategic_exploration_direction g u r = Ok (d, tl r)
            /\ In d ["N"; "S"; "E"; "W"].
Proof.
  unfold Game.get_strategic_exploration_direction.
  match goal with
  | |- context [random_choice (map fst (List.filter _ ?w))] => set (weights := w)
  end.
  assert (Hkeys : map fst weights = ["N"; "S"; "E"; "W"]).
  { subst weights.
    assert (Hscan : forall ws, map fst ws = ["N"; "S"; "E"; "W"] ->
              map fst (match Game.base_location g with
                       | Some (bx, by_) =>
                           if String.eqb (Unit.type u) "scout"
                           then Game.weights_add ws
                                  (Game.get_direction_to_coordinates u bx by_) (-2)
                           else ws
                       | None => ws
                       end) = ["N"; "S"; "E"; "W"]).
    { intros ws Hws. destruct (Game.base_location g) as [[bx by_]|]; auto.
      destruct (String.eqb (Unit.type u) "scout"); auto.
      now rewrite weights_add_keys. }
    apply Hscan.
    apply (fold_left_invariant (fun ws => map fst ws = ["N"; "S"; "E"; "W"]));
      [reflexivity|].
    intros ws [direction [dx dy]] Hws.
    apply (fold_left_invariant (fun ws => map fst ws = ["N"; "S"; "E"; "W"]));
      [exact Hws|].
    intros ws' distance Hws'.
    destruct ((0 <=? Unit.x u + dx * distance) && (Unit.x u + dx * distance <? Game.map_width g)
              && (0 <=? Unit.y u + dy * distance) && (Unit.y u + dy * distance <? Game.map_height g));
      auto.
    destruct (World.get_tile _ _ _) as [tile|]; [destruct (negb (Tile.visible tile))|];
      auto; now rewrite weights_add_keys. }
  assert (Hne : weights <> []) by (intros E; rewrite E in Hkeys; discriminate).
  destruct (random_choice_nonempty _ r (best_directions_nonempty weights Hne))
    as (d & Hd & Hin).
  exists d. split; [exact Hd|].
  rewrite <- Hkeys. apply in_map_iff in Hin. destruct Hin as (p & Hp & Hin).
  apply filter_In in Hin. apply in_map_iff. exists p. tauto.
Qed.

(** ** Every loop of the policy only appends unit orders *)

Lemma grows_refl c : grows c c.
Proof. exists []. split; [now rewrite app_nil_r|constructor]. Qed.

Lemma grows_trans c1 c2 c3 : grows c1 c2 -> grows c2 c3 -> grows c1 c3.
Proof.
  intros (s1 & -> & H1) (s2 & -> & H2). exists (s1 ++ s2).
  split; [now rewrite app_assoc|]. apply Forall_app. auto.
Qed.

Lemma grows_move c u d : grows c (c ++ [CommandBuilder.move u d]).
Proof. exists [CommandBuilder.move u d]. split; auto. repeat constructor. Qed.

Lemma grows_gather c u d : grows c (c ++ [CommandBuilder.gather u d]).
Proof.
  exists [CommandBuilder.gather u d]. split; auto.
  constructor; [now right|constructor].
Qed.

#[local] Hint Resolve grows_refl grows_move grows_gather : policy.

Lemma tile_is_adjacent_ok (u : Unit.t) (t : Tile.t) :
  Game.is_adjacent u t
  = Ok (Game.manhattan_distance (Unit.x u) (Unit.y u) (Tile.x t) (Tile.y t) =? 1).
Proof. reflexivity. Qed.

Lemma worker_body_grows g w c r c' r' :
  Game.worker_body g w c r = Ok (c', r') -> grows c c'.
Proof.
  unfold Game.worker_body.
  destruct (Unit.resource w >? 0).
  - destruct (Game.base_location g) as [[bx by_]|]; unfold_monad;
      intros H; inversion H; subst; auto with policy.
  - destruct (Game.find_nearest_resource g w) as [tile|].
    + rewrite tile_is_adjacent_ok. unfold_monad.
      destruct (_ =? 1); intros H; inversion H; subst; auto with policy.
    + destruct (exploration_direction_total g w r) as (d & Hd & _).
      unfold_monad. rewrite Hd. intros H; inversion H; subst; auto with policy.
Qed.

Lemma scout_body_grows g s c r c' r' :
  Game.scout_body g s c r = Ok (c', r') -> grows c c'.
Proof.
  unfold Game.scout_body.
  destruct (exploration_direction_total g s r) as (d & Hd & _).
  unfold_monad. rewrite Hd. intros H; inversion H; subst; auto with policy.
Qed.

Lemma tank_patrol_grows g t c : grows c (Game.tank_patrol g t c).
Proof.
  unfold Game.tank_patrol. destruct (Game.find_nearest_worker g t); auto with policy.
Qed.

(** A tank body that returns has patrolled: engaging raises. *)
Lemma tank_body_ok g t c r c' r' :
  Game.tank_body g t c r = Ok (c', r') -> c' = Game.tank_patrol g t c /\ r' = r.
Proof.
  unfold Game.tank_body.
  destruct (Game.find_nearest_enemy g t) as [enemy|].
  - unfold_monad.
    destruct (occupant_truthy enemy).
    + destruct (Game.is_in_range t enemy) as [[|]|e]; try discriminate.
      * destruct (Game.is_adjacent t enemy) as [[|]|e]; try discriminate.
        destruct (get_x enemy); try discriminate.
        destruct (get_y enemy); discriminate.
      * intros H; inversion H; auto.
    + intros H; inversion H; auto.
  - unfold_monad. intros H; inversion H; auto.
Qed.

Lemma tank_body_grows g t c r c' r' :
  Game.tank_body g t c r = Ok (c', r') -> grows c c'.
Proof.
  intros H. apply tank_body_ok in H. destruct H as [-> _]. apply tank_patrol_grows.
Qed.

Lemma for_each_grows {A} (body : A -> list Command.t -> M (list Command.t)) :
  (forall a c r c' r', body a c r = Ok (c', r') -> grows c c') ->
  forall l c r c' r', for_each l body c r = Ok (c', r') -> grows c c'.
Proof.
  intros Hbody. induction l as [|a l IH]; intros c r c' r'; simpl.
  - unfold ret. intros H; inversion H; subst. apply grows_refl.
  - unfold bind. destruct (body a c r) as [[c1 r1]|e] eqn:E; [|discriminate].
    intros H. eapply grows_trans; eauto.
Qed.

(** The creation chain returns the list it was given, or raises. *)
Lemma create_units_ok g c c' : Game.create_units g c = Ok c' -> c' = c.
Proof.
  unfold Game.create_units, Game.worker_count, Game.scout_count, Game.tank_count.
  unfold_monad.
  repeat match goal with
         | |- context [if ?b then _ else _] => destruct b; try discriminate
         end.
  intros H. now inversion H.
Qed.




(** ** Workers that carry resources *)

(** With no base seen, a worker body raises the subscript error and nothing
    else, and does raise it when the worker carries something. *)
Lemma worker_body_without_base g w c r :
  Game.base_location g = None ->
  (Unit.resource w > 0 -> Game.worker_body g w c r = Raise Game.none_not_subscriptable)
  /\ (forall e, Game.worker_body g w c r = Raise e -> e = Game.none_not_subscriptable).
Proof.
  intros Hbase. unfold Game.worker_body. rewrite Hbase. split.
  - intros Hpos. apply Z.gt_lt, Z.gtb_lt in Hpos. now rewrite Hpos.
  - intros e. destruct (Unit.resource w >? 0).
    + unfold lift. intros H; now inversion H.
    + destruct (Game.find_nearest_resource g w) as [tile|].
      * rewrite tile_is_adjacent_ok. unfold_monad. destruct (_ =? 1); discriminate.
      * destruct (exploration_direction_total g w r) as (d & Hd & _).
        unfold_monad. rewrite Hd. discriminate.
Qed.

Lemma workers_without_base_raise g (workers : list Unit.t) :
  Game.base_location g = None ->
  Exists (fun w => Unit.resource w > 0) workers ->
  forall c r, for_each workers (Game.worker_body g) c r = Raise Game.none_not_subscriptable.
Proof.
  intros Hbase. induction workers as [|w ws IH]; intros Hex c r.
  - inversion Hex.
  - simpl. unfold bind.
    destruct (worker_body_without_base g w c r Hbase) as [Hladen Honly].
    destruct (Game.worker_body g w c r) as [[c1 r1]|e] eqn:E.
    + apply IH. inversion Hex as [? ? Hw|? ? Hws]; subst; auto.
      specialize (Hladen Hw). discriminate.
    + now rewrite (Honly e eq_refl).
Qed.

(** C2, as the code has it: while no base has been seen, a turn with an idle
    worker that carries resources raises [TypeError] instead of returning a
    command list. *)
Theorem laden_worker_without_base_raises (g : Game.t) (r : rng) :
  Game.base_location g = None ->
  Exists (fun w => Unit.resource w > 0) (Game.idle_units g "worker") ->
  Game.get_commands g r = Raise Game.none_not_subscriptable.
Proof.
  intros Hbase Hex. unfold Game.get_commands, bind.
  now rewrite (workers_without_base_raise g _ Hbase Hex).
Qed.

(** The first message of a session reports an idle worker carrying 5 and no
    base: the turn raises. *)
Lemma laden_worker_without_base_raises_witness :
  snd (Game.process_updates Game.init Scenario.worker_no_base [])
  = Raise Game.none_not_subscriptable.
Proof.
  apply (laden_worker_without_base_raises
           (fst (Game.process_updates Game.init Scenario.worker_no_base [])) []).
  - reflexivity.
  - vm_compute. constructor. reflexivity.
Defined.

(** C8, amended: an idle worker at (3,3) carrying 5, first among the idle
    workers, with the base at (0,0): its body appends a MOVE to the north,
    and that is the first command of every command list the turn returns. *)
Theorem laden_worker_moves_north
        (g : Game.t) (r : rng) (worker : Unit.t) (others : list Unit.t) :
  Game.idle_units g "worker" = worker :: others ->
  Unit.x worker = 3 -> Unit.y worker = 3 -> Unit.resource worker = 5 ->
  Game.base_location g = Some (0, 0) ->
  Game.worker_body g worker [] r = Ok ([CommandBuilder.move worker "N"], r)
  /\ Game.get_direction_to_coordinates worker 0 0 = "N"
  /\ forall cmds r',
      Game.get_commands g r = Ok (cmds, r') ->
      head cmds = Some (CommandBuilder.move worker "N").
Proof.
  intros Hidle Hx Hy Hres Hbase.
  assert (Hdir : Game.get_direction_to_coordinates worker 0 0 = "N").
  { unfold Game.get_direction_to_coordinates. now rewrite Hx, Hy. }
  assert (Hbody : Game.worker_body g worker [] r = Ok ([CommandBuilder.move worker "N"], r)).
  { unfold Game.worker_body. rewrite Hres, Hbase, Hdir. reflexivity. }
  split; [exact Hbody|]. split; [exact Hdir|].
  intros cmds r' Hcmds.
  unfold Game.get_commands in Hcmds. rewrite Hidle in Hcmds. simpl in Hcmds.
  unfold bind at 1 2 in Hcmds. rewrite Hbody in Hcmds.
  assert (Hgrow : grows [CommandBuilder.move worker "N"] cmds).
  { unfold bind in Hcmds.
    destruct (for_each others _ _ _) as [[c1 r1]|] eqn:E1; [|discriminate].
    destruct (for_each (Game.idle_units g "scout") _ _ _) as [[c2 r2]|] eqn:E2;
      [|discriminate].
    destruct (for_each (Game.idle_units g "tank") _ _ _) as [[c3 r3]|] eqn:E3;
      [|discriminate].
    unfold lift in Hcmds.
    destruct (Game.create_units g c3) as [c4|] eqn:E4; [|discriminate].
    inversion Hcmds; subst. apply create_units_ok in E4. subst.
    apply (for_each_grows _ (worker_body_grows g)) in E1.
    apply (for_each_grows _ (scout_body_grows g)) in E2.
    apply (for_each_grows _ (tank_body_grows g)) in E3.
    eauto using grows_trans. }
  destruct Hgrow as (suffix & -> & _). reflexivity.
Qed.

(** The session whose first message reports the base at (0,0) and the
    worker: the reply is the single command MOVE north. *)
Lemma laden_worker_moves_north_witness :
  let g := fst (Game.process_updates Game.init Scenario.worker_with_base []) in
  let worker := Unit.init Scenario.laden_worker in
  snd (Game.process_updates Game.init Scenario.worker_with_base [])
  = Ok ([CommandBuilder.move worker "N"], [])
  /\ Game.worker_body g worker [] [] = Ok ([CommandBuilder.move worker "N"], []).
Proof.
  intros g worker.
  destruct (laden_worker_moves_north g [] worker [] eq_refl eq_refl eq_refl eq_refl eq_refl)
    as (Hbody & _ & _).
  split; [reflexivity|exact Hbody].
Defined.

(** C8 as stated fails: in that session the first command is a MOVE, and
    its direction is N, not W. *)
Lemma laden_worker_does_not_move_west :
  ~ (exists c rest r',
        snd (Game.process_updates Game.init Scenario.worker_with_base [])
        = Ok (c :: rest, r')
        /\ is_move c = true /\ Command.dir c = "W").
Proof.
  intros (c & rest & r' & H & _ & Hdir).
  vm_compute in H. inversion H; subst. discriminate Hdir.
Qed.

(** ** Tanks and the enemy they find *)

Lemma adjacent_is_in_range (unit_type : string) : (1 <=? Game.vision_range unit_type) = true.
Proof.
  unfold Game.vision_range.
  repeat match goal with
         | |- context [String.eqb ?a ?b] => destruct (String.eqb a b)
         end; reflexivity.
Qed.

(** C3, as the code has it: the tank body for a tank whose nearest enemy is
    truthy and, when it is a [Unit], at distance 1, raises: on the missing
    [CommandBuilder.melee] for a [Unit], on the missing attribute [x] for a
    decoded record.  No MELEE command is built. *)
Theorem adjacent_enemy_raises_instead_of_melee
        (g : Game.t) (tank : Unit.t) (enemy : occupant)
        (commands : list Command.t) (r : rng) :
  Game.find_nearest_enemy g tank = Some enemy ->
  occupant_truthy enemy = true ->
  (forall u, enemy = OUnit u ->
             Game.manhattan_distance (Unit.x tank) (Unit.y tank) (Unit.x u) (Unit.y u) = 1) ->
  Game.tank_body g tank commands r
  = Raise (match enemy with
           | OUnit _ => CommandBuilder.no_attribute "melee"
           | OJson _ => AttributeError "json" "x"
           end).
Proof.
  intros Hfind Htruthy Hdist. unfold Game.tank_body. rewrite Hfind.
  unfold_monad. rewrite Htruthy.
  destruct enemy as [j|u]; [reflexivity|].
  unfold Game.is_in_range, Game.is_adjacent. simpl.
  rewrite (Hdist u eq_refl), adjacent_is_in_range. reflexivity.
Qed.

(** Tank 7 at (0,0) and a unit reported on the visible tile (1,0): the turn
    raises whether the tile entry is a [Unit] or a decoded record. *)
Lemma adjacent_enemy_raises_instead_of_melee_witness :
  let tank := Unit.init Scenario.tank_7 in
  (Game.tank_body (fst (Game.process_updates Game.init Scenario.tank_meets_enemy_unit []))
                  tank [] []
   = Raise (CommandBuilder.no_attribute "melee")
   /\ snd (Game.process_updates Game.init Scenario.tank_meets_enemy_unit [])
      = Raise (CommandBuilder.no_attribute "melee"))
  /\ (Game.tank_body (fst (Game.process_updates Game.init Scenario.tank_meets_enemy []))
                     tank [] []
      = Raise (AttributeError "json" "x")
      /\ snd (Game.process_updates Game.init Scenario.tank_meets_enemy [])
         = Raise (AttributeError "json" "x")).
Proof.
  intros tank. split; split.
  - apply (adjacent_enemy_raises_instead_of_melee
             (fst (Game.process_updates Game.init Scenario.tank_meets_enemy_unit []))
             tank (OUnit Scenario.enemy_unit) [] []).
    + reflexivity.
    + reflexivity.
    + intros u Hu. inversion Hu; subst. reflexivity.
  - reflexivity.
  - apply (adjacent_enemy_raises_instead_of_melee
             (fst (Game.process_updates Game.init Scenario.tank_meets_enemy []))
             tank Scenario.enemy_entry [] []).
    + reflexivity.
    + reflexivity.
    + intros u Hu. discriminate Hu.
  - reflexivity.
Defined.

(** The search reads the position of the querying unit and nothing else of
    it: no player id enters the comparison. *)
Lemma find_nearest_enemy_ignores_owner (g : Game.t) (u u' : Unit.t) :
  Unit.x u = Unit.x u' -> Unit.y u = Unit.y u' ->
  Game.find_nearest_enemy g u = Game.find_nearest_enemy g u'.
Proof.
  intros Hx Hy. unfold Game.find_nearest_enemy. now rewrite Hx, Hy.
Qed.

(** C9: there is a session state, reached by one message, where the visible
    tile under a unit lists that unit, and [find_nearest_enemy] asked by the
    unit returns the entry; and a state where the entry is the very [Unit]
    object that asks. *)
Theorem nearest_enemy_can_be_own_unit :
  (exists (g : Game.t) (unit : Unit.t) (tile : Tile.t) (own : occupant),
      g = fst (Game.process_updates Game.init Scenario.tank_on_own_tile [])
      /\ dict_get (World.units_by_id (Game.world g)) (Unit.id unit) = Some unit
      /\ World.get_tile (Game.world g) (Unit.x unit) (Unit.y unit) = Some tile
      /\ Tile.visible tile = true
      /\ In own (Tile.units tile)
      /\ occupant_player_id own = Some (Unit.player_id unit)
      /\ occupant_unit_id own = Some (Unit.id unit)
      /\ Game.find_nearest_enemy g unit = Some own)
  /\ (exists (g : Game.t) (unit : Unit.t) (tile : Tile.t),
         World.get_tile (Game.world g) (Unit.x unit) (Unit.y unit) = Some tile
         /\ Tile.visible tile = true
         /\ In (OUnit unit) (Tile.units tile)
         /\ Game.find_nearest_enemy g unit = Some (OUnit unit)).
Proof.
  split.
  - exists (fst (Game.process_updates Game.init Scenario.tank_on_own_tile [])),
      (Unit.init Scenario.tank_7),
      (Tile.init (Scenario.tile_record 0 0 true false None (Some [Scenario.entry_7]))),
      Scenario.entry_7.
    repeat split; try reflexivity. now left.
  - set (unit := Unit.init Scenario.tank_7).
    set (record := Scenario.tile_record 0 0 true false None (Some [OUnit unit])).
    exists (Game.absorb Game.init
              (Scenario.message (Some Scenario.game_info_10) (Some [Scenario.tank_7])
                                (Some [record]))),
      unit, (Tile.init record).
    repeat split; try reflexivity. now left.
Qed.

(** ** Unit creation *)

(** With the base known and 100 or more in the stockpile, the creation
    chain reads [worker_count] and raises. *)
Lemma create_units_funded g commands :
  is_Some (Game.base_location g) -> Game.resources g >= 100 ->
  Game.create_units g commands = Raise (Game.no_attribute "worker_count").
Proof.
  intros Hbase Hres. unfold Game.create_units.
  rewrite (bool_decide_eq_true_2 _ Hbase).
  assert (Hafford : Game.can_afford g "worker" = true).
  { unfold Game.can_afford. simpl. rewrite Z.geb_leb. apply Z.leb_le. lia. }
  rewrite Hafford. reflexivity.
Qed.

(** With less than 100 in the stockpile the chain adds nothing and raises
    nothing. *)
Lemma create_units_unfunded g commands :
  Game.resources g < 100 -> Game.create_units g commands = Ok commands.
Proof.
  intros Hres. unfold Game.create_units.
  rewrite !(cannot_afford_below_100 g _ Hres), !andb_false_r. reflexivity.
Qed.

(** C4 on the code: after a first message with the 10 x 10 game info, a
    worker cost of 100 and the base, the stockpile is 0 and the reply is
    empty; with the stockpile set to 150 by hand the turn raises on
    [worker_count].  Neither turn holds a CREATE. *)
Theorem funded_base_creates_no_worker :
  let g := fst (Game.process_updates Game.init Scenario.opening []) in
  Game.map_width g = 10 /\ Game.map_height g = 10
  /\ Game.unit_costs g = Some [("worker", 100)]
  /\ Game.base_location g = Some (0, 0)
  /\ Game.resources g = 0
  /\ snd (Game.process_updates Game.init Scenario.opening []) = Ok ([], [])
  /\ Game.resources (with_resources g 150) = 150
  /\ Game.get_commands (with_resources g 150) [] = Raise (Game.no_attribute "worker_count").
Proof. intros g. repeat split. Qed.




(** A session of two turns: both replies are returned, neither holds a
    CREATE. *)
Example two_turns_without_creation :
  let m2 := Scenario.message None
              (Some [Scenario.unit_record 3 1 3 3 "scout" "idle" None]) None in
  exists reply1 reply2 g,
    NetworkHandler.handle [Scenario.worker_with_base; m2] [1%nat] = (g, [reply1; reply2], None)
    /\ length reply1 = 1%nat /\ length reply2 = 2%nat
    /\ List.filter is_create (reply1 ++ reply2) = [].
Proof.
  intros m2. eexists _, _, _. split; [vm_compute; reflexivity|].
  repeat split.
Qed.

(** * Further properties of the client *)

(** ** Manhattan distance *)

(** X1: [manhattan_distance] is a metric on grid positions: never negative,
    zero exactly between equal positions, symmetric, and it obeys the triangle
    inequality. *)
Theorem manhattan_distance_is_metric (x1 y1 x2 y2 x3 y3 : Z) :
  0 <= Game.manhattan_distance x1 y1 x2 y2
  /\ (Game.manhattan_distance x1 y1 x2 y2 = 0 <-> x1 = x2 /\ y1 = y2)
  /\ Game.manhattan_distance x1 y1 x2 y2 = Game.manhattan_distance x2 y2 x1 y1
  /\ Game.manhattan_distance x1 y1 x3 y3
     <= Game.manhattan_distance x1 y1 x2 y2 + Game.manhattan_distance x2 y2 x3 y3.
Proof. unfold Game.manhattan_distance. lia. Qed.

(** ** One step in the chosen direction *)

Lemma direction_of_cases dx dy :
  Game.direction_of dx dy = "N" \/ Game.direction_of dx dy = "S"
  \/ Game.direction_of dx dy = "E" \/ Game.direction_of dx dy = "W".
Proof.
  unfold Game.direction_of.
  destruct (Z.abs dx >? Z.abs dy); [destruct (dx >? 0)|destruct (dy >? 0)]; auto.
Qed.

(** X2: away from the target, one step in the direction
    [get_direction_to_coordinates] answers brings the unit exactly one closer;
    on the target itself the answer N leads one step away. *)
Theorem direction_step_gets_closer (unit : Unit.t) (target_x target_y : Z) :
  let d := Game.get_direction_to_coordinates unit target_x target_y in
  let p := step (Unit.x unit) (Unit.y unit) d in
  (distance_to unit target_x target_y <> 0 ->
   Game.manhattan_distance (fst p) (snd p) target_x target_y
   = distance_to unit target_x target_y - 1)
  /\ (distance_to unit target_x target_y = 0 ->
      Game.manhattan_distance (fst p) (snd p) target_x target_y = 1).
Proof.
  unfold Game.get_direction_to_coordinates, Game.direction_of, distance_to,
    Game.manhattan_distance, step.
  destruct (Z.abs (target_x - Unit.x unit) >? Z.abs (target_y - Unit.y unit)) eqn:Habs;
    [destruct (target_x - Unit.x unit >? 0) eqn:Hs
    |destruct (target_y - Unit.y unit >? 0) eqn:Hs];
    simpl;
    try (apply Z.gtb_lt in Habs);
    try (rewrite Z.gtb_ltb in Habs; apply Z.ltb_ge in Habs);
    try (apply Z.gtb_lt in Hs);
    try (rewrite Z.gtb_ltb in Hs; apply Z.ltb_ge in Hs);
    lia.
Qed.

(** ** The three nearest-candidate searches *)

Lemma in_range (n x : Z) : In x (range n) <-> 0 <= x < n.
Proof.
  unfold range. rewrite in_map_iff. split.
  - intros (i & <- & Hi). apply in_seq in Hi. lia.
  - intros Hx. exists (Z.to_nat x). split; [lia|]. apply in_seq. lia.
Qed.

Lemma fold_left_pointwise {A B} (f f' : A -> B -> A) (l : list B) :
  (forall a b, f a b = f' a b) -> forall a, fold_left f l a = fold_left f' l a.
Proof.
  intros Hff'. induction l as [|b l IH]; intros a; simpl; auto.
  now rewrite Hff', IH.
Qed.

Lemma fold_left_over_flat_map {A B C} (f : A -> C -> A) (h : B -> list C) (l : list B) :
  forall a, fold_left f (flat_map h l) a = fold_left (fun a b => fold_left f (h b) a) l a.
Proof.
  induction l as [|b l IH]; intros a; simpl; auto.
  now rewrite fold_left_app, IH.
Qed.

Lemma map_over_flat_map {A B C} (f : B -> C) (h : A -> list B) (l : list A) :
  map f (flat_map h l) = flat_map (fun a => map f (h a)) l.
Proof.
  induction l as [|a l IH]; simpl; auto. now rewrite map_app, IH.
Qed.

Lemma flat_map_pointwise {A B} (h h' : A -> list B) (l : list A) :
  (forall a, h a = h' a) -> flat_map h l = flat_map h' l.
Proof.
  intros Hhh'. induction l as [|a l IH]; simpl; auto. now rewrite Hhh', IH.
Qed.

(** What the scan keeps: nothing from no candidates; otherwise the first
    candidate of least distance. *)
Lemma nearest_of_spec {A B} (f : B -> A) (d : B -> Z) (cs : list B) :
  match cs with
  | [] => nearest_of (map (fun c => (f c, d c)) cs) = (None, None)
  | _ =>
      exists pre b post,
        cs = pre ++ b :: post
        /\ Forall (fun c => d b < d c) pre
        /\ Forall (fun c => d b <= d c) post
        /\ nearest_of (map (fun c => (f c, d c)) cs) = (Some (f b), Some (d b))
  end.
Proof.
  induction cs as [|c cs IH] using rev_ind; [reflexivity|].
  assert (Hstep : nearest_of (map (fun c => (f c, d c)) (cs ++ [c]))
                  = keep_nearer (nearest_of (map (fun c => (f c, d c)) cs)) (f c, d c)).
  { unfold nearest_of. now rewrite map_app, fold_left_app. }
  assert (Hgoal : exists pre b post,
             cs ++ [c] = pre ++ b :: post
             /\ Forall (fun c => d b < d c) pre
             /\ Forall (fun c => d b <= d c) post
             /\ nearest_of (map (fun c => (f c, d c)) (cs ++ [c])) = (Some (f b), Some (d b))).
  { rewrite Hstep. destruct cs as [|c0 cs0].
    - exists [], c, []. repeat split; constructor.
    - destruct IH as (pre & b & post & Hcs & Hpre & Hpost & Hres).
      rewrite Hres. unfold keep_nearer. cbn [fst snd lt_inf].
      destruct (d c <? d b) eqn:Hlt.
      + apply Z.ltb_lt in Hlt. exists (pre ++ b :: post), c, [].
        rewrite Hcs. repeat split; [|constructor].
        apply Forall_app. split.
        * eapply Forall_impl; [exact Hpre|]. simpl. intros; lia.
        * constructor; [lia|]. eapply Forall_impl; [exact Hpost|]. simpl. intros; lia.
      + apply Z.ltb_ge in Hlt. exists pre, b, (post ++ [c]).
        rewrite Hcs, <- app_assoc. repeat split; auto.
        apply Forall_app. split; auto. }
  destruct (cs ++ [c]) eqn:E; [|exact Hgoal].
  destruct cs; discriminate.
Qed.

(** [find_nearest_resource] is the scan over the accepted coordinates. *)
Lemma find_nearest_resource_scan (g : Game.t) (u : Unit.t) :
  Game.find_nearest_resource g u
  = fst (nearest_of (map (fun c : Z * Z * Tile.t =>
                            (snd c, distance_to u (fst (fst c)) (snd (fst c))))
                         (resource_sites g))).
Proof.
  unfold Game.find_nearest_resource, nearest_of, resource_sites. f_equal.
  rewrite map_over_flat_map, fold_left_over_flat_map.
  apply fold_left_pointwise. intros acc x.
  rewrite map_over_flat_map, fold_left_over_flat_map.
  apply fold_left_pointwise. intros [nearest min] y.
  destruct (World.get_tile (Game.world g) x y) as [t|]; [|reflexivity].
  destruct (Tile.visible t && Tile.has_resources t && negb (Game.is_tile_blocked g x y));
    reflexivity.
Qed.

Lemma in_resource_sites (g : Game.t) (x y : Z) (t : Tile.t) :
  In (x, y, t) (resource_sites g) <-> resource_site g x y t.
Proof.
  unfold resource_sites, resource_site. rewrite in_flat_map. split.
  - intros (x' & Hx' & Hin). apply in_flat_map in Hin. destruct Hin as (y' & Hy' & Hin).
    apply in_range in Hx'. apply in_range in Hy'.
    unfold Game.is_tile_blocked in Hin.
    destruct (World.get_tile (Game.world g) x' y') as [t'|] eqn:Ht; [|inversion Hin].
    destruct (Tile.visible t') eqn:Hv, (Tile.has_resources t') eqn:Hr,
      (Tile.blocked t') eqn:Hb; simpl in Hin; try tauto.
    destruct Hin as [Heq|[]]. inversion Heq; subst. tauto.
  - intros (Hx & Hy & Ht & Hv & Hr & Hb).
    exists x. split; [now apply in_range|].
    apply in_flat_map. exists y. split; [now apply in_range|].
    unfold Game.is_tile_blocked. rewrite Ht, Hv, Hr, Hb. now left.
Qed.

Lemma range_sorted (n : Z) : StronglySorted Z.lt (range n).
Proof.
  unfold range. generalize 0%nat as start.
  induction (Z.to_nat n) as [|k IH]; intros start; simpl; constructor.
  - apply IH.
  - apply Forall_forall. intros z Hz. apply list_elem_of_In, in_map_iff in Hz.
    destruct Hz as (i & <- & Hi). apply in_seq in Hi. lia.
Qed.

Lemma flat_map_sorted {A B} (RA : relation A) (RB : relation B)
      (h : A -> list B) (l : list A) :
  StronglySorted RA l ->
  (forall a, In a l -> StronglySorted RB (h a)) ->
  (forall a a' b b', RA a a' -> In b (h a) -> In b' (h a') -> RB b b') ->
  StronglySorted RB (flat_map h l).
Proof.
  intros Hl Hin Hcross. induction Hl as [|a l Hl IH Ha]; simpl; [constructor|].
  apply StronglySorted_app_2.
  - intros b b' Hb Hb'. apply list_elem_of_In in Hb. apply list_elem_of_In in Hb'.
    apply in_flat_map in Hb'. destruct Hb' as (a' & Ha' & Hb').
    rewrite Forall_forall in Ha. apply list_elem_of_In in Ha'.
    eapply Hcross; eauto.
  - apply Hin. now left.
  - apply IH. intros a' Ha'. apply Hin. now right.
Qed.

Lemma same_coordinate_sorted {T} (p : Z * Z) (l : list (Z * Z * T)) :
  (forall c, In c l -> fst c = p) -> StronglySorted site_order l.
Proof.
  induction l as [|c l IH]; intros Hl; constructor.
  - apply IH. intros c' Hc'. apply Hl. now right.
  - apply Forall_forall. intros c' Hc'. apply list_elem_of_In in Hc'.
    unfold site_order, scan_not_after.
    rewrite (Hl c (or_introl eq_refl)), (Hl c' (or_intror Hc')). lia.
Qed.

(** A scan of the map cell by cell meets its candidates in scan order. *)
Lemma grid_sorted {T} (cell : Z -> Z -> list (Z * Z * T)) (w h : Z) :
  (forall x y c, In c (cell x y) -> fst c = (x, y)) ->
  StronglySorted site_order
    (flat_map (fun x => flat_map (fun y => cell x y) (range h)) (range w)).
Proof.
  intros Hcell.
  apply (flat_map_sorted Z.lt site_order); [apply range_sorted| |].
  - intros x _.
    apply (flat_map_sorted Z.lt site_order); [apply range_sorted| |].
    + intros y _. apply (same_coordinate_sorted (x, y)). apply Hcell.
    + intros y y' c c' Hy Hc Hc'. unfold site_order, scan_not_after.
      rewrite (Hcell _ _ _ Hc), (Hcell _ _ _ Hc'). simpl. lia.
  - intros x x' c c' Hx Hc Hc'.
    apply in_flat_map in Hc. destruct Hc as (y & _ & Hc).
    apply in_flat_map in Hc'. destruct Hc' as (y' & _ & Hc').
    unfold site_order, scan_not_after.
    rewrite (Hcell _ _ _ Hc), (Hcell _ _ _ Hc'). simpl. lia.
Qed.

(** In a scan in scan order, what lies strictly earlier than a candidate
    was met before it. *)
Lemma sorted_before_in_prefix {T} (pre post : list (Z * Z * T)) (b c : Z * Z * T) :
  StronglySorted site_order (pre ++ b :: post) ->
  In c (pre ++ b :: post) ->
  scan_before (fst c) (fst b) ->
  In c pre.
Proof.
  intros Hsorted Hin Hbefore. apply in_app_or in Hin.
  destruct Hin as [Hin|[Heq|Hin]]; [exact Hin| |].
  - subst c. unfold scan_before in Hbefore. lia.
  - apply StronglySorted_app_1_r, StronglySorted_cons in Hsorted.
    destruct Hsorted as [Hpost _]. rewrite Forall_forall in Hpost.
    apply list_elem_of_In in Hin. specialize (Hpost _ Hin).
    unfold site_order, scan_not_after in Hpost. unfold scan_before in Hbefore. lia.
Qed.

Lemma resource_sites_sorted (g : Game.t) : StronglySorted site_order (resource_sites g).
Proof.
  unfold resource_sites.
  apply (grid_sorted
           (fun x y =>
              match World.get_tile (Game.world g) x y with
              | Some t =>
                  if Tile.visible t && Tile.has_resources t
                     && negb (Game.is_tile_blocked g x y)
                  then [(x, y, t)] else []
              | None => []
              end)).
  intros x y c Hc.
  destruct (World.get_tile (Game.world g) x y) as [t|]; [|inversion Hc].
  destruct (Tile.visible t && Tile.has_resources t && negb (Game.is_tile_blocked g x y));
    [|inversion Hc].
  destruct Hc as [<-|[]]. reflexivity.
Qed.


(** X3: [find_nearest_resource] answers [None] exactly when no coordinate
    of the map holds a known, visible, unblocked tile with resources;
    otherwise it answers the tile of such a coordinate that is nearest to the
    unit, and among equally near ones the first in scan order (smaller x,
    then smaller y).  Tiles stored outside the map are never answered. *)
Theorem find_nearest_resource_is_nearest (g : Game.t) (u : Unit.t) :
  match Game.find_nearest_resource g u with
  | None => forall x y t, ~ resource_site g x y t
  | Some t =>
      exists x y,
        resource_site g x y t
        /\ forall x' y' t',
            resource_site g x' y' t' ->
            distance_to u x y <= distance_to u x' y'
            /\ (scan_before (x', y') (x, y) -> distance_to u x y < distance_to u x' y')
  end.
Proof.
  rewrite find_nearest_resource_scan.
  pose proof (nearest_of_spec (fun c : Z * Z * Tile.t => snd c)
                (fun c => distance_to u (fst (fst c)) (snd (fst c)))
                (resource_sites g)) as Hscan.
  pose proof (resource_sites_sorted g) as Hsorted.
  destruct (resource_sites g) as [|c0 cs0] eqn:Hsites.
  - rewrite Hscan. simpl. intros x y t Hsite.
    apply in_resource_sites in Hsite. rewrite Hsites in Hsite. inversion Hsite.
  - destruct Hscan as (pre & [[x y] t] & post & Hcs & Hpre & Hpost & Hres).
    rewrite Hres. simpl. exists x, y. split.
    + apply in_resource_sites. rewrite Hsites, Hcs. apply in_elt.
    + intros x' y' t' Hsite. apply in_resource_sites in Hsite.
      rewrite Hsites, Hcs in Hsite. rewrite Hcs in Hsorted.
      rewrite Forall_forall in Hpre, Hpost. split.
      * apply in_app_or in Hsite. destruct Hsite as [Hin|[Heq|Hin]].
        -- apply list_elem_of_In in Hin. specialize (Hpre _ Hin). simpl in Hpre. lia.
        -- inversion Heq; subst. lia.
        -- apply list_elem_of_In in Hin. specialize (Hpost _ Hin). simpl in Hpost. lia.
      * intros Hbefore.
        pose proof (sorted_before_in_prefix pre post (x, y, t) (x', y', t')
                      Hsorted Hsite Hbefore) as Hin.
        apply list_elem_of_In in Hin. specialize (Hpre _ Hin). exact Hpre.
Qed.





Lemma worker_loop_scan (u : Unit.t) (units : list Unit.t) :
  forall acc,
    fold_left
      (fun '(nearest_worker, min_distance) other_unit =>
         if String.eqb (Unit.type other_unit) "worker"
            && negb (Unit.id other_unit =? Unit.id u)
         then
           let distance :=
             Game.manhattan_distance (Unit.x u) (Unit.y u)
                                     (Unit.x other_unit) (Unit.y other_unit) in
           if lt_inf distance min_distance
           then (Some other_unit, Some distance)
           else (nearest_worker, min_distance)
         else (nearest_worker, min_distance))
      units acc
    = fold_left keep_nearer
        (map (fun w => (w, distance_to u (Unit.x w) (Unit.y w)))
             (List.filter
                (fun other_unit =>
                   String.eqb (Unit.type other_unit) "worker"
                   && negb (Unit.id other_unit =? Unit.id u))
                units))
        acc.
Proof.
  induction units as [|w ws IH]; intros [nearest min]; simpl; auto.
  destruct (String.eqb (Unit.type w) "worker" && negb (Unit.id w =? Unit.id u)); simpl.
  - rewrite IH. unfold keep_nearer, distance_to. simpl. now destruct (lt_inf _ min).
  - apply IH.
Qed.

Lemma in_other_workers (g : Game.t) (u w : Unit.t) :
  In w (other_workers g u)
  <-> In w (dict_values (World.units_by_id (Game.world g)))
      /\ Unit.type w = "worker" /\ Unit.id w <> Unit.id u.
Proof.
  unfold other_workers. rewrite filter_In, andb_true_iff, negb_true_iff.
  rewrite String.eqb_eq, Z.eqb_neq. tauto.
Qed.

(** X5: [find_nearest_worker] answers [None] exactly when every known
    worker is the querying unit itself (by id); otherwise it answers a known
    worker with another id, and none of those is nearer. *)
Theorem find_nearest_worker_is_nearest_other (g : Game.t) (u : Unit.t) :
  match Game.find_nearest_worker g u with
  | None =>
      forall w, In w (dict_values (World.units_by_id (Game.world g))) ->
                Unit.type w = "worker" -> Unit.id w = Unit.id u
  | Some w =>
      In w (dict_values (World.units_by_id (Game.world g)))
      /\ Unit.type w = "worker" /\ Unit.id w <> Unit.id u
      /\ forall w',
          In w' (dict_values (World.units_by_id (Game.world g))) ->
          Unit.type w' = "worker" -> Unit.id w' <> Unit.id u ->
          distance_to u (Unit.x w) (Unit.y w) <= distance_to u (Unit.x w') (Unit.y w')
  end.
Proof.
  unfold Game.find_nearest_worker. rewrite worker_loop_scan.
  fold (other_workers g u).
  pose proof (nearest_of_spec (fun w : Unit.t => w)
                (fun w => distance_to u (Unit.x w) (Unit.y w))
                (other_workers g u)) as Hscan.
  unfold nearest_of in Hscan.
  destruct (other_workers g u) as [|c0 cs0] eqn:Hothers.
  - simpl. intros w Hin Htype.
    destruct (Z.eq_dec (Unit.id w) (Unit.id u)) as [|Hne]; auto.
    assert (Hw : In w (other_workers g u)) by (apply in_other_workers; auto).
    rewrite Hothers in Hw. inversion Hw.
  - destruct Hscan as (pre & w & post & Hcs & Hpre & Hpost & Hres).
    rewrite Hres. simpl.
    assert (Hw : In w (other_workers g u)) by (rewrite Hothers, Hcs; apply in_elt).
    apply in_other_workers in Hw. destruct Hw as (Hin & Htype & Hid).
    repeat split; auto.
    intros w' Hin' Htype' Hid'.
    assert (Hw' : In w' (other_workers g u)) by (apply in_other_workers; auto).
    rewrite Hothers, Hcs in Hw'. apply in_app_or in Hw'.
    rewrite Forall_forall in Hpre, Hpost.
    destruct Hw' as [H|[Heq|H]].
    + apply list_elem_of_In in H. specialize (Hpre _ H). simpl in Hpre. lia.
    + subst. lia.
    + apply list_elem_of_In in H. specialize (Hpost _ H). simpl in Hpost. lia.
Qed.

(** ** The world model under updates *)

Lemma last_where_snoc {A} (p : A -> bool) (l : list A) (a : A) :
  last_where p (l ++ [a]) = if p a then Some a else last_where p l.
Proof. unfold last_where. now rewrite fold_left_app. Qed.

Lemma update_tile_other (w : World.t) (d : TileData.t) (x y : Z) :
  (TileData.x d, TileData.y d) <> (x, y) ->
  World.get_tile (World.update_tile w d) x y = World.get_tile w x y.
Proof.
  intros Hne. unfold World.get_tile, World.update_tile. simpl.
  now apply lookup_insert_ne.
Qed.

Lemma update_tiles_units (batch : list TileData.t) :
  forall w, World.units_by_id (World.update_tiles w batch) = World.units_by_id w.
Proof.
  induction batch as [|d batch IH]; intros w; simpl; auto.
  unfold World.update_tiles in *. simpl. now rewrite IH.
Qed.

Lemma update_tiles_get (w : World.t) (batch : list TileData.t) (x y : Z) :
  World.get_tile (World.update_tiles w batch) x y
  = match last_where (fun d => (TileData.x d =? x) && (TileData.y d =? y)) batch with
    | Some d => Some (Tile.init d)
    | None => World.get_tile w x y
    end.
Proof.
  induction batch as [|d batch IH] using rev_ind; [reflexivity|].
  unfold World.update_tiles in *. rewrite fold_left_app, last_where_snoc. simpl.
  destruct ((TileData.x d =? x) && (TileData.y d =? y)) eqn:E.
  - apply andb_true_iff in E. destruct E as [Ex Ey].
    apply Z.eqb_eq in Ex. apply Z.eqb_eq in Ey. subst. apply update_tile_lookup.
  - rewrite update_tile_other; [exact IH|].
    intros Heq. inversion Heq; subst. now rewrite !Z.eqb_refl in E.
Qed.

(** X6: after [update_tiles], the tile at a coordinate is the one built
    from the last record of the batch for that coordinate, and the tile
    stored before if the batch has none; the units are untouched. *)
Theorem update_tiles_last_record_wins (w : World.t) (batch : list TileData.t) (x y : Z) :
  World.get_tile (World.update_tiles w batch) x y
  = match last_where (fun d => (TileData.x d =? x) && (TileData.y d =? y)) batch with
    | Some d => Some (Tile.init d)
    | None => World.get_tile w x y
    end
  /\ World.units_by_id (World.update_tiles w batch) = World.units_by_id w.
Proof. split; [apply update_tiles_get|apply update_tiles_units]. Qed.

Lemma update_unit_lookup (w : World.t) (d : UnitData.t) (k : Z) :
  dict_get (World.units_by_id (World.update_unit w d)) k
  = if UnitData.id d =? k
    then Some (match dict_get (World.units_by_id w) k with
               | Some u => Unit.update u d
               | None => Unit.init d
               end)
    else dict_get (World.units_by_id w) k.
Proof.
  destruct (UnitData.id d =? k) eqn:E.
  - apply Z.eqb_eq in E. subst k. unfold World.update_unit.
    destruct (dict_get (World.units_by_id w) (UnitData.id d)); simpl;
      apply dict_get_set_eq.
  - apply Z.eqb_neq in E. now apply update_unit_other.
Qed.

Lemma update_units_tiles (batch : list UnitData.t) :
  forall w, World.tiles (World.update_units w batch) = World.tiles w.
Proof.
  induction batch as [|d batch IH]; intros w; simpl; auto.
  unfold World.update_units in *. simpl. now rewrite IH, update_unit_tiles.
Qed.

Lemma update_units_get (batch : list UnitData.t) (k : Z) :
  forall w,
    dict_get (World.units_by_id (World.update_units w batch)) k
    = merge_records (dict_get (World.units_by_id w) k)
                    (List.filter (fun d => UnitData.id d =? k) batch).
Proof.
  induction batch as [|d batch IH]; intros w; [reflexivity|].
  unfold World.update_units in *. simpl. rewrite IH, update_unit_lookup.
  destruct (UnitData.id d =? k); reflexivity.
Qed.

(** X7: [update_units] treats each id on its own: the unit stored under an
    id after a batch is what the records of the batch for that id, in
    order, make of the unit stored before, the first one creating it with
    [Unit.__init__] when the id was unknown; records for other ids do not
    matter, and the tiles are untouched. *)
Theorem update_units_merges_per_id (w : World.t) (batch : list UnitData.t) (k : Z) :
  dict_get (World.units_by_id (World.update_units w batch)) k
  = merge_records (dict_get (World.units_by_id w) k)
                  (List.filter (fun d => UnitData.id d =? k) batch)
  /\ World.tiles (World.update_units w batch) = World.tiles w.
Proof. split; [apply update_units_get|apply update_units_tiles]. Qed.

Lemma dict_set_keys {V} (d : list (Z * V)) (k : Z) (v : V) :
  map fst (dict_set d k v)
  = if existsb (Z.eqb k) (map fst d) then map fst d else map fst d ++ [k].
Proof.
  induction d as [|[k' v'] d IH]; simpl; [reflexivity|].
  rewrite (Z.eqb_sym k k'). destruct (k' =? k); simpl; [reflexivity|].
  rewrite IH. now destruct (existsb (Z.eqb k) (map fst d)).
Qed.

Lemma update_unit_keys (w : World.t) (d : UnitData.t) :
  map fst (World.units_by_id (World.update_unit w d))
  = if existsb (Z.eqb (UnitData.id d)) (map fst (World.units_by_id w))
    then map fst (World.units_by_id w)
    else map fst (World.units_by_id w) ++ [UnitData.id d].
Proof.
  unfold World.update_unit.
  destruct (dict_get (World.units_by_id w) (UnitData.id d)); simpl; apply dict_set_keys.
Qed.

Lemma update_units_keys (batch : list UnitData.t) :
  forall w,
    map fst (World.units_by_id (World.update_units w batch))
    = map fst (World.units_by_id w) ++ new_ids (map fst (World.units_by_id w)) batch.
Proof.
  induction batch as [|d batch IH]; intros w; simpl.
  - now rewrite app_nil_r.
  - unfold World.update_units in *. simpl. rewrite IH, update_unit_keys.
    destruct (existsb (Z.eqb (UnitData.id d)) (map fst (World.units_by_id w))); auto.
    now rewrite <- app_assoc.
Qed.

Lemma update_unit_keys_nodup (w : World.t) (d : UnitData.t) :
  List.NoDup (map fst (World.units_by_id w)) ->
  List.NoDup (map fst (World.units_by_id (World.update_unit w d))).
Proof.
  intros Hnd. rewrite update_unit_keys.
  destruct (existsb (Z.eqb (UnitData.id d)) (map fst (World.units_by_id w))) eqn:E; auto.
  apply List.NoDup_app. repeat split; auto.
  - constructor; [intros []|constructor].
  - intros x Hx [<-|[]].
    assert (Hex : existsb (Z.eqb (UnitData.id d)) (map fst (World.units_by_id w)) = true).
    { apply existsb_exists. exists (UnitData.id d). split; auto. apply Z.eqb_refl. }
    congruence.
Qed.

Lemma update_units_keys_nodup (batch : list UnitData.t) :
  forall w, List.NoDup (map fst (World.units_by_id w)) ->
            List.NoDup (map fst (World.units_by_id (World.update_units w batch))).
Proof.
  induction batch as [|d batch IH]; intros w Hnd; simpl; auto.
  apply IH. now apply update_unit_keys_nodup.
Qed.

(** X8: [update_units] never removes a unit and never moves one in the
    iteration order of [units_by_id]: the ids stored before keep their
    order, and the ids the batch mentions for the first time follow, in the
    order of their first mention. *)
Theorem update_units_keeps_order (w : World.t) (batch : list UnitData.t) :
  map fst (World.units_by_id (World.update_units w batch))
  = map fst (World.units_by_id w) ++ new_ids (map fst (World.units_by_id w)) batch
  /\ (length (World.units_by_id w)
      <= length (World.units_by_id (World.update_units w batch)))%nat.
Proof.
  pose proof (update_units_keys batch w) as Hkeys.
  split; [exact Hkeys|].
  apply (f_equal (@length Z)) in Hkeys.
  rewrite length_app, !length_map in Hkeys. lia.
Qed.

Lemma last_where_sound {A} (p : A -> bool) (l : list A) (a : A) :
  last_where p l = Some a -> p a = true /\ In a l.
Proof.
  induction l as [|b l IH] using rev_ind; [discriminate|].
  rewrite last_where_snoc. destruct (p b) eqn:E.
  - intros H. inversion H; subst. split; auto. apply in_elt.
  - intros H. destruct (IH H). split; auto. apply in_or_app. auto.
Qed.

Lemma update_tiles_keyed (w : World.t) (batch : list TileData.t) :
  tiles_keyed w -> tiles_keyed (World.update_tiles w batch).
Proof.
  intros Hw x y t. rewrite update_tiles_get.
  destruct (last_where _ batch) as [d|] eqn:E; [|apply Hw].
  apply last_where_sound in E. destruct E as [E _].
  apply andb_true_iff in E. destruct E as [Ex Ey].
  apply Z.eqb_eq in Ex. apply Z.eqb_eq in Ey.
  intros H. inversion H; subst. auto.
Qed.

Lemma merge_records_id (k : Z) (records : list UnitData.t) :
  Forall (fun d => UnitData.id d = k) records ->
  forall stored u,
    (forall u0, stored = Some u0 -> Unit.id u0 = k) ->
    merge_records stored records = Some u -> Unit.id u = k.
Proof.
  unfold merge_records.
  induction 1 as [|d records Hd _ IH]; intros stored u Hstored; simpl.
  - apply Hstored.
  - apply IH. intros u0 H0. inversion H0; subst.
    destruct stored as [u1|]; simpl; auto.
Qed.

Lemma update_units_keyed (w : World.t) (batch : list UnitData.t) :
  units_keyed w -> units_keyed (World.update_units w batch).
Proof.
  intros Hw k u. rewrite update_units_get. apply merge_records_id.
  - apply Forall_forall. intros d Hd. apply list_elem_of_In, filter_In in Hd.
    destruct Hd as [_ Hd]. now apply Z.eqb_eq in Hd.
  - apply Hw.
Qed.

Lemma absorb_world (g : Game.t) (m : Message.t) :
  Game.world (Game.absorb g m)
  = let w1 := match Message.unit_updates m with
              | Some batch => World.update_units (Game.world g) batch
              | None => Game.world g
              end in
    match Message.tile_updates m with
    | Some batch => World.update_tiles w1 batch
    | None => w1
    end.
Proof.
  unfold Game.absorb, Game.apply_tile_updates, Game.apply_unit_updates,
    Game.apply_game_info.
  destruct (Message.game_info m), (Message.unit_updates m), (Message.tile_updates m);
    reflexivity.
Qed.

Lemma update_units_world_keyed (w : World.t) (batch : list UnitData.t) :
  tiles_keyed w /\ units_keyed w /\ List.NoDup (map fst (World.units_by_id w)) ->
  tiles_keyed (World.update_units w batch)
  /\ units_keyed (World.update_units w batch)
  /\ List.NoDup (map fst (World.units_by_id (World.update_units w batch))).
Proof.
  intros (Ht & Hu & Hn). split; [|split].
  - unfold tiles_keyed, World.get_tile in *. now rewrite update_units_tiles.
  - now apply update_units_keyed.
  - now apply update_units_keys_nodup.
Qed.

Lemma update_tiles_world_keyed (w : World.t) (batch : list TileData.t) :
  tiles_keyed w /\ units_keyed w /\ List.NoDup (map fst (World.units_by_id w)) ->
  tiles_keyed (World.update_tiles w batch)
  /\ units_keyed (World.update_tiles w batch)
  /\ List.NoDup (map fst (World.units_by_id (World.update_tiles w batch))).
Proof.
  intros (Ht & Hu & Hn). split; [|split].
  - now apply update_tiles_keyed.
  - unfold units_keyed in *. now rewrite update_tiles_units.
  - now rewrite update_tiles_units.
Qed.

(** The three facts a session keeps about its world. *)
Lemma absorb_world_keyed (g : Game.t) (m : Message.t) :
  tiles_keyed (Game.world g) /\ units_keyed (Game.world g)
  /\ List.NoDup (map fst (World.units_by_id (Game.world g))) ->
  tiles_keyed (Game.world (Game.absorb g m))
  /\ units_keyed (Game.world (Game.absorb g m))
  /\ List.NoDup (map fst (World.units_by_id (Game.world (Game.absorb g m)))).
Proof.
  intros Hg. rewrite absorb_world. cbv zeta.
  destruct (Message.unit_updates m) as [units|], (Message.tile_updates m) as [tiles|];
    auto using update_units_world_keyed, update_tiles_world_keyed.
Qed.

Lemma serve_world_keyed (lines : list Message.t) :
  forall g r,
    tiles_keyed (Game.world g) /\ units_keyed (Game.world g)
    /\ List.NoDup (map fst (World.units_by_id (Game.world g))) ->
    let final := fst (fst (NetworkHandler.serve g lines r)) in
    tiles_keyed (Game.world final) /\ units_keyed (Game.world final)
    /\ List.NoDup (map fst (World.units_by_id (Game.world final))).
Proof.
  induction lines as [|m lines IH]; intros g r Hg; simpl; auto.
  apply (absorb_world_keyed g m) in Hg.
  destruct (Game.get_commands (Game.absorb g m) r) as [[response r']|e]; simpl; auto.
  specialize (IH (Game.absorb g m) r' Hg).
  destruct (NetworkHandler.serve (Game.absorb g m) lines r') as [[final replies] e'].
  exact IH.
Qed.

(** X9: throughout a session started by [Game()], every tile is stored under
    its own coordinates, every unit under its own id, and no id is stored
    twice. *)
Theorem session_world_is_keyed (lines : list Message.t) (r : rng) :
  let final := fst (fst (NetworkHandler.handle lines r)) in
  tiles_keyed (Game.world final)
  /\ units_keyed (Game.world final)
  /\ List.NoDup (map fst (World.units_by_id (Game.world final))).
Proof.
  apply serve_world_keyed. split; [|split].
  - intros x0 y0 t0 H. unfold World.get_tile in H. simpl in H.
    rewrite lookup_empty in H. discriminate.
  - intros k0 u0 H. discriminate.
  - constructor.
Qed.

(** ** What a message does to the session *)

Lemma track_base_fold (batch : list UnitData.t) (base : option (Z * Z)) :
  fold_left Game.track_base batch base
  = match last_where (fun d => String.eqb (UnitData.type d) "base") batch with
    | Some d => Some (UnitData.x d, UnitData.y d)
    | None => base
    end.
Proof.
  induction batch as [|d batch IH] using rev_ind; [reflexivity|].
  rewrite fold_left_app, last_where_snoc. simpl. unfold Game.track_base at 1.
  destruct (String.eqb (UnitData.type d) "base"); auto.
Qed.

Lemma absorb_base_location (g : Game.t) (m : Message.t) :
  Game.base_location (Game.absorb g m)
  = match Message.unit_updates m with
    | Some batch =>
        match last_where (fun d => String.eqb (UnitData.type d) "base") batch with
        | Some d => Some (UnitData.x d, UnitData.y d)
        | None => Game.base_location g
        end
    | None => Game.base_location g
    end.
Proof.
  unfold Game.absorb, Game.apply_tile_updates, Game.apply_unit_updates,
    Game.apply_game_info.
  destruct (Message.game_info m), (Message.unit_updates m) as [units|],
    (Message.tile_updates m); simpl; auto; apply track_base_fold.
Qed.

Lemma serve_base_known (lines : list Message.t) :
  forall g r, is_Some (Game.base_location g) ->
              is_Some (Game.base_location (fst (fst (NetworkHandler.serve g lines r)))).
Proof.
  induction lines as [|m lines IH]; intros g r Hg; simpl; auto.
  assert (Hm : is_Some (Game.base_location (Game.absorb g m))).
  { rewrite absorb_base_location.
    destruct (Message.unit_updates m) as [batch|]; auto.
    destruct (last_where _ batch); auto. }
  destruct (Game.get_commands (Game.absorb g m) r) as [[response r']|e]; simpl; auto.
  specialize (IH (Game.absorb g m) r' Hm).
  destruct (NetworkHandler.serve (Game.absorb g m) lines r') as [[final replies] e'].
  exact IH.
Qed.

(** X10: the message sets [base_location] to the position of the last
    record of type base in its [unit_updates], whoever owns that unit, and
    leaves it alone when there is none; so a base location, once known, stays
    known for the rest of the session. *)
Theorem base_location_is_last_base_record
        (g : Game.t) (m : Message.t) (lines : list Message.t) (r : rng) :
  Game.base_location (fst (Game.process_updates g m r))
  = match Message.unit_updates m with
    | Some batch =>
        match last_where (fun d => String.eqb (UnitData.type d) "base") batch with
        | Some d => Some (UnitData.x d, UnitData.y d)
        | None => Game.base_location g
        end
    | None => Game.base_location g
    end
  /\ (is_Some (Game.base_location g) ->
      is_Some (Game.base_location (fst (fst (NetworkHandler.serve g lines r))))).
Proof.
  split; [apply absorb_base_location|apply serve_base_known].
Qed.

Lemma can_afford_threshold (g : Game.t) (unit_type : string) :
  Game.can_afford g unit_type = true
  <-> (unit_type = "worker" /\ 100 <= Game.resources g)
      \/ (unit_type = "scout" /\ 130 <= Game.resources g)
      \/ (unit_type = "tank" /\ 150 <= Game.resources g).
Proof.
  unfold Game.can_afford, Game.unit_cost.
  destruct (String.eqb_spec unit_type "worker") as [->|Hw].
  { simpl. rewrite Z.geb_leb, Z.leb_le. split; [auto|].
    intros [[_ H]|[[H _]|[H _]]]; auto; discriminate. }
  destruct (String.eqb_spec unit_type "scout") as [->|Hs].
  { simpl. rewrite Z.geb_leb, Z.leb_le. split; [auto|].
    intros [[H _]|[[_ H]|[H _]]]; auto; discriminate. }
  destruct (String.eqb_spec unit_type "tank") as [->|Ht].
  { simpl. rewrite Z.geb_leb, Z.leb_le. split; [auto|].
    intros [[H _]|[[H _]|[_ H]]]; auto; discriminate. }
  split; [discriminate|]. intros [[H _]|[[H _]|[H _]]]; contradiction.
Qed.

(** X11: [can_afford] answers from the stockpile and its own cost table
    (worker 100, scout 130, tank 150; any other type is never affordable);
    the costs a [game_info] message brings are stored in [unit_costs] and do
    not change the answer. *)
Theorem can_afford_ignores_game_info_costs
        (g : Game.t) (m : Message.t) (r : rng) (unit_type : string) :
  Game.can_afford (fst (Game.process_updates g m r)) unit_type
  = Game.can_afford g unit_type
  /\ (Game.can_afford g unit_type = true
      <-> (unit_type = "worker" /\ 100 <= Game.resources g)
          \/ (unit_type = "scout" /\ 130 <= Game.resources g)
          \/ (unit_type = "tank" /\ 150 <= Game.resources g))
  /\ (forall info,
         Message.game_info m = Some info ->
         Game.unit_costs (fst (Game.process_updates g m r))
         = Some (omap (fun '(unit_type, cost) =>
                         match cost with
                         | Some c => Some (unit_type, c)
                         | None => None
                         end) (GameInfo.unit_info info))).
Proof.
  split; [|split].
  - unfold Game.can_afford. simpl. now rewrite absorb_resources.
  - apply can_afford_threshold.
  - intros info Hinfo. simpl.
    unfold Game.absorb, Game.apply_tile_updates, Game.apply_unit_updates,
      Game.apply_game_info.
    rewrite Hinfo.
    destruct (Message.unit_updates m), (Message.tile_updates m); reflexivity.
Qed.

(** ** When a turn raises, and whom its commands address *)

Lemma for_each_is_ok {A C} (body : A -> C -> M C) (ok : A -> bool) :
  (forall a c r, is_ok (body a c r) = ok a) ->
  forall l c r, is_ok (for_each l body c r) = forallb ok l.
Proof.
  intros Hbody. induction l as [|a l IH]; intros c r; simpl; [reflexivity|].
  unfold bind. specialize (Hbody a c r).
  destruct (body a c r) as [[c1 r1]|e]; simpl in Hbody; rewrite <- Hbody; simpl; auto.
Qed.

Lemma worker_body_is_ok g w c r :
  is_ok (Game.worker_body g w c r) = negb (worker_fails g w).
Proof.
  unfold Game.worker_body, worker_fails.
  destruct (Unit.resource w >? 0); simpl.
  - destruct (Game.base_location g) as [[bx by_]|]; reflexivity.
  - destruct (Game.find_nearest_resource g w) as [tile|].
    + rewrite tile_is_adjacent_ok. unfold_monad. now destruct (_ =? 1).
    + destruct (exploration_direction_total g w r) as (d & Hd & _).
      unfold_monad. now rewrite Hd.
Qed.

Lemma scout_body_is_ok g s c r : is_ok (Game.scout_body g s c r) = true.
Proof.
  unfold Game.scout_body.
  destruct (exploration_direction_total g s r) as (d & Hd & _).
  unfold_monad. now rewrite Hd.
Qed.

Lemma tank_body_is_ok g t c r :
  is_ok (Game.tank_body g t c r) = negb (tank_fails g t).
Proof.
  unfold Game.tank_body, tank_fails.
  destruct (Game.find_nearest_enemy g t) as [enemy|]; [|reflexivity].
  unfold_monad. destruct (occupant_truthy enemy); [|reflexivity].
  destruct enemy as [j|u]; [reflexivity|].
  unfold Game.is_in_range, Game.is_adjacent, distance_to. simpl.
  destruct (_ <=? Game.vision_range (Unit.type t)); [|reflexivity].
  now destruct (_ =? 1).
Qed.

Lemma create_units_is_ok g c :
  is_ok (Game.create_units g c) = negb (creation_fails g).
Proof.
  unfold creation_fails. destruct (Z_lt_ge_dec (Game.resources g) 100) as [Hlt|Hge].
  - rewrite (create_units_unfunded g c Hlt).
    assert (E : (Game.resources g >=? 100) = false)
      by (rewrite Z.geb_leb; apply Z.leb_gt; lia).
    now rewrite E, andb_false_r.
  - assert (E : (Game.resources g >=? 100) = true)
      by (rewrite Z.geb_leb; apply Z.leb_le; lia).
    rewrite E, andb_true_r.
    destruct (Game.base_location g) as [b|] eqn:Hb.
    + rewrite create_units_funded; [|rewrite Hb; eauto|exact Hge].
      rewrite bool_decide_eq_true_2; eauto.
    + unfold Game.create_units. rewrite Hb.
      rewrite bool_decide_eq_false_2; [reflexivity|]. intros [x Hx]. discriminate.
Qed.

(** X12: a turn returns a command list exactly when no idle worker carries
    resources while the base is unknown, no idle tank has a truthy nearest
    enemy that is a decoded record or a [Unit] in range, and the base is
    unknown or the stockpile below 100; the draws of the random source do
    not matter.  In a session started by [Game()] the last condition always
    holds. *)
Theorem turn_returns_exactly_when (g : Game.t) (r : rng) :
  is_ok (Game.get_commands g r)
  = forallb (fun w => negb (worker_fails g w)) (Game.idle_units g "worker")
    && forallb (fun t => negb (tank_fails g t)) (Game.idle_units g "tank")
    && negb (creation_fails g)
  /\ (forall lines r0, creation_fails (fst (fst (NetworkHandler.handle lines r0))) = false).
Proof.
  split.
  - unfold Game.get_commands, bind.
    pose proof (for_each_is_ok (Game.worker_body g) _ (worker_body_is_ok g)
                  (Game.idle_units g "worker") [] r) as Hw.
    destruct (for_each (Game.idle_units g "worker") _ _ _) as [[c1 r1]|e1];
      simpl in Hw; rewrite <- Hw; [|reflexivity].
    pose proof (for_each_is_ok (Game.scout_body g) (fun _ => true) (scout_body_is_ok g)
                  (Game.idle_units g "scout") c1 r1) as Hs.
    destruct (for_each (Game.idle_units g "scout") _ _ _) as [[c2 r2]|e2]; simpl in Hs.
    + pose proof (for_each_is_ok (Game.tank_body g) _ (tank_body_is_ok g)
                    (Game.idle_units g "tank") c2 r2) as Ht.
      destruct (for_each (Game.idle_units g "tank") _ _ _) as [[c3 r3]|e3];
        simpl in Ht; rewrite <- Ht; [|reflexivity].
      unfold lift. pose proof (create_units_is_ok g c3) as Hc.
      destruct (Game.create_units g c3); simpl in *; now rewrite <- Hc.
    + exfalso. clear - Hs.
      induction (Game.idle_units g "scout") as [|s l IH]; simpl in Hs;
        [discriminate|auto].
  - intros lines r0. unfold creation_fails, NetworkHandler.handle.
    assert (E : (Game.resources (fst (fst (NetworkHandler.serve Game.init lines r0))) >=? 100)
                = false).
    { rewrite serve_resources. reflexivity. }
    now rewrite E, andb_false_r.
Qed.

Lemma for_each_appends {A} (body : A -> list Command.t -> M (list Command.t))
      (ids : A -> list Z) :
  (forall a c r c' r',
      body a c r = Ok (c', r') ->
      exists suffix, c' = c ++ suffix /\ map Command.unit suffix = ids a) ->
  forall l c r c' r',
    for_each l body c r = Ok (c', r') ->
    exists suffix, c' = c ++ suffix /\ map Command.unit suffix = flat_map ids l.
Proof.
  intros Hbody. induction l as [|a l IH]; intros c r c' r'; simpl.
  - unfold ret. intros H; inversion H; subst. exists []. now rewrite app_nil_r.
  - unfold bind. destruct (body a c r) as [[c1 r1]|e] eqn:E; [|discriminate].
    intros H. apply Hbody in E. destruct E as (s1 & -> & Hs1).
    apply IH in H. destruct H as (s2 & -> & Hs2).
    exists (s1 ++ s2). rewrite <- app_assoc, map_app, Hs1, Hs2. auto.
Qed.

Lemma worker_body_appends g w c r c' r' :
  Game.worker_body g w c r = Ok (c', r') ->
  exists suffix, c' = c ++ suffix /\ map Command.unit suffix = [Unit.id w].
Proof.
  unfold Game.worker_body.
  destruct (Unit.resource w >? 0).
  - destruct (Game.base_location g) as [[bx by_]|]; unfold_monad;
      intros H; inversion H; subst; eauto.
  - destruct (Game.find_nearest_resource g w) as [tile|].
    + rewrite tile_is_adjacent_ok. unfold_monad.
      destruct (_ =? 1); intros H; inversion H; subst; eauto.
    + destruct (exploration_direction_total g w r) as (d & Hd & _).
      unfold_monad. rewrite Hd. intros H; inversion H; subst; eauto.
Qed.

Lemma scout_body_appends g s c r c' r' :
  Game.scout_body g s c r = Ok (c', r') ->
  exists suffix, c' = c ++ suffix /\ map Command.unit suffix = [Unit.id s].
Proof.
  unfold Game.scout_body.
  destruct (exploration_direction_total g s r) as (d & Hd & _).
  unfold_monad. rewrite Hd. intros H; inversion H; subst; eauto.
Qed.

Lemma tank_body_appends g t c r c' r' :
  Game.tank_body g t c r = Ok (c', r') ->
  exists suffix,
    c' = c ++ suffix
    /\ map Command.unit suffix = if tank_follows g t then [Unit.id t] else [].
Proof.
  intros H. apply tank_body_ok in H. destruct H as [-> _].
  unfold Game.tank_patrol, tank_follows.
  destruct (Game.find_nearest_worker g t); eauto.
  exists []. now rewrite app_nil_r.
Qed.

Lemma flat_map_singleton_ids (l : list Unit.t) :
  flat_map (fun u => [Unit.id u]) l = map Unit.id l.
Proof. induction l; simpl; congruence. Qed.

Lemma flat_map_follow_ids g (l : list Unit.t) :
  flat_map (fun t => if tank_follows g t then [Unit.id t] else []) l
  = map Unit.id (List.filter (tank_follows g) l).
Proof.
  induction l as [|t l IH]; simpl; auto.
  destruct (tank_follows g t); simpl; congruence.
Qed.

(** X13: a command list the turn returns addresses, in this order, every
    idle worker once, every idle scout once, and every idle tank that has a
    worker to follow once, each group in the iteration order of
    [units_by_id]; no command addresses a busy unit or a unit of another
    type. *)
Theorem reply_addresses_idle_units (g : Game.t) (r r' : rng) (cmds : list Command.t) :
  Game.get_commands g r = Ok (cmds, r') ->
  map Command.unit cmds
  = map Unit.id (Game.idle_units g "worker")
    ++ map Unit.id (Game.idle_units g "scout")
    ++ map Unit.id (List.filter (tank_follows g) (Game.idle_units g "tank")).
Proof.
  unfold Game.get_commands, bind.
  destruct (for_each (Game.idle_units g "worker") _ _ _) as [[c1 r1]|] eqn:E1;
    [|discriminate].
  destruct (for_each (Game.idle_units g "scout") _ _ _) as [[c2 r2]|] eqn:E2;
    [|discriminate].
  destruct (for_each (Game.idle_units g "tank") _ _ _) as [[c3 r3]|] eqn:E3;
    [|discriminate].
  unfold lift. destruct (Game.create_units g c3) as [c4|] eqn:E4; [|discriminate].
  intros H. inversion H; subst. apply create_units_ok in E4. subst.
  apply (for_each_appends _ _ (worker_body_appends g)) in E1.
  apply (for_each_appends _ _ (scout_body_appends g)) in E2.
  apply (for_each_appends _ _ (tank_body_appends g)) in E3.
  destruct E1 as (s1 & -> & H1), E2 as (s2 & -> & H2), E3 as (s3 & -> & H3).
  simpl. rewrite !map_app, H1, H2, H3.
  now rewrite !flat_map_singleton_ids, flat_map_follow_ids, <- app_assoc.
Qed.

(** One message reports the base, a laden worker, a busy worker, a scout
    and a tank: the reply addresses worker 2, scout 3 and tank 7. *)
Lemma reply_addresses_idle_units_witness :
  let m := Scenario.message (Some Scenario.game_info_10)
             (Some [Scenario.base_at_origin; Scenario.tank_7;
                    Scenario.unit_record 3 1 5 5 "scout" "idle" None;
                    Scenario.unit_record 4 1 6 6 "worker" "busy" None;
                    Scenario.laden_worker]) None in
  exists cmds r',
    snd (Game.process_updates Game.init m [2%nat]) = Ok (cmds, r')
    /\ map Command.unit cmds = [2; 3; 7].
Proof.
  intros m.
  destruct (snd (Game.process_updates Game.init m [2%nat])) as [[cmds r']|e] eqn:E;
    [|vm_compute in E; discriminate].
  exists cmds, r'. split; [reflexivity|].
  apply (reply_addresses_idle_units _ _ _ _ E).
Defined.

(** ** The worker rule for a worker that carries nothing *)

Lemma step_towards (x y tx ty : Z) :
  let d := Game.direction_of (tx - x) (ty - y) in
  let p := step x y d in
  (Game.manhattan_distance x y tx ty <> 0 ->
   Game.manhattan_distance (fst p) (snd p) tx ty = Game.manhattan_distance x y tx ty - 1)
  /\ (Game.manhattan_distance x y tx ty = 0 -> d = "N").
Proof.
  unfold Game.direction_of, Game.manhattan_distance, step.
  destruct (Z.abs (tx - x) >? Z.abs (ty - y)) eqn:Habs;
    [destruct (tx - x >? 0) eqn:Hs|destruct (ty - y >? 0) eqn:Hs];
    simpl;
    try (apply Z.gtb_lt in Habs);
    try (rewrite Z.gtb_ltb in Habs; apply Z.ltb_ge in Habs);
    try (apply Z.gtb_lt in Hs);
    try (rewrite Z.gtb_ltb in Hs; apply Z.ltb_ge in Hs);
    split; intros; try reflexivity; try lia.
Qed.

(** X14: a worker that carries nothing and for which a nearest resource
    tile is found gets exactly one command and uses no random draw: GATHER
    when the tile is at distance 1, and then one step in the command's
    direction is the tile's position; MOVE toward the tile otherwise, which
    for a worker standing on the tile itself is a MOVE to the north. *)
Theorem worker_heads_for_nearest_resource
        (g : Game.t) (w : Unit.t) (c : list Command.t) (r : rng) (t : Tile.t) :
  Unit.resource w <= 0 ->
  Game.find_nearest_resource g w = Some t ->
  let d := Game.get_direction_to_tile w t in
  let dist := distance_to w (Tile.x t) (Tile.y t) in
  Game.worker_body g w c r
  = Ok (c ++ [if dist =? 1 then CommandBuilder.gather w d else CommandBuilder.move w d], r)
  /\ (dist = 1 -> step (Unit.x w) (Unit.y w) d = (Tile.x t, Tile.y t))
  /\ (dist = 0 -> d = "N").
Proof.
  intros Hres Hfind d dist. split; [|split].
  - unfold Game.worker_body.
    assert (E : (Unit.resource w >? 0) = false)
      by (rewrite Z.gtb_ltb; apply Z.ltb_ge; lia).
    rewrite E, Hfind, tile_is_adjacent_ok. unfold_monad.
    fold (distance_to w (Tile.x t) (Tile.y t)). fold dist. fold d.
    now destruct (dist =? 1).
  - intros H1.
    destruct (step_towards (Unit.x w) (Unit.y w) (Tile.x t) (Tile.y t)) as [Hstep _].
    unfold dist, distance_to in H1. rewrite H1 in Hstep.
    specialize (Hstep ltac:(lia)).
    unfold d, Game.get_direction_to_tile.
    destruct (step _ _ _) as [px py]. simpl in Hstep.
    unfold Game.manhattan_distance in Hstep. f_equal; lia.
  - intros H0.
    destruct (step_towards (Unit.x w) (Unit.y w) (Tile.x t) (Tile.y t)) as [_ Hn].
    apply Hn. exact H0.
Qed.

(** Worker 2 stands at (3,3) with nothing and sees 50 resources on the
    tile (3,4): it gathers to the south. *)
Lemma worker_heads_for_nearest_resource_witness :
  let m := Scenario.message (Some Scenario.game_info_10)
             (Some [Scenario.unit_record 2 1 3 3 "worker" "idle" None])
             (Some [Scenario.tile_record 3 4 true false (Some 50) None]) in
  let g := Game.absorb Game.init m in
  let w := Unit.init (Scenario.unit_record 2 1 3 3 "worker" "idle" None) in
  Game.worker_body g w [] [] = Ok ([CommandBuilder.gather w "S"], [])
  /\ step 3 3 "S" = (3, 4).
Proof.
  intros m g w.
  destruct (worker_heads_for_nearest_resource
              g w [] []
              (Tile.init (Scenario.tile_record 3 4 true false (Some 50) None)))
    as (Hbody & Hstep & _).
  - vm_compute. discriminate.
  - vm_compute. reflexivity.
  - split; [exact Hbody|]. apply Hstep. reflexivity.
Defined.

(** ** Range and adjacency *)

(** X15: for every unit type, also one the range table does not list, a
    target that [is_adjacent] accepts is one that [is_in_range] accepts; and
    both raise for a target without [x] and [y]. *)
Theorem adjacent_targets_are_in_range {A} `{HasPosition A} (unit : Unit.t) (target : A) :
  (Game.is_adjacent unit target = Ok true -> Game.is_in_range unit target = Ok true)
  /\ (is_ok (Game.is_adjacent unit target) = is_ok (Game.is_in_range unit target)).
Proof.
  unfold Game.is_adjacent, Game.is_in_range, rbind.
  destruct (get_x target) as [tx|e]; [|split; [discriminate|reflexivity]].
  destruct (get_y target) as [ty|e]; [|split; [discriminate|reflexivity]].
  split; [|reflexivity].
  intros Hadj. inversion Hadj as [Hd]. apply Z.eqb_eq in Hd. rewrite Hd.
  now rewrite adjacent_is_in_range.
Qed.

(** ** Resource tiles next to a unit *)

(** X16: [get_adjacent_resource_tile] answers a known tile with resources at
    Manhattan distance 1 from the unit, and [None] exactly when none of the
    four neighbouring coordinates holds one; unlike [find_nearest_resource]
    it looks at neither the map bounds nor the visible and blocked flags. *)
Theorem adjacent_resource_tile_found_iff_present (w : World.t) (u : Unit.t) :
  match World.get_adjacent_resource_tile w u with
  | None =>
      forall dx dy t,
        Z.abs dx + Z.abs dy = 1 ->
        World.get_tile w (Unit.x u + dx) (Unit.y u + dy) = Some t ->
        Tile.has_resources t = false
  | Some t =>
      Tile.has_resources t = true
      /\ exists dx dy,
          Z.abs dx + Z.abs dy = 1
          /\ World.get_tile w (Unit.x u + dx) (Unit.y u + dy) = Some t
  end.
Proof.
  unfold World.get_adjacent_resource_tile. cbn [omap list_omap head].
  destruct (World.get_tile w (Unit.x u + 0) (Unit.y u + -1)) as [tN|] eqn:EN;
    [destruct (Tile.has_resources tN) eqn:RN|];
    try (cbn [head]; split; [assumption|exists 0, (-1); split; [reflexivity|assumption]]);
    (destruct (World.get_tile w (Unit.x u + 0) (Unit.y u + 1)) as [tS|] eqn:ES;
     [destruct (Tile.has_resources tS) eqn:RS|];
     try (cbn [head]; split; [assumption|exists 0, 1; split; [reflexivity|assumption]]);
     (destruct (World.get_tile w (Unit.x u + -1) (Unit.y u + 0)) as [tW|] eqn:EW;
      [destruct (Tile.has_resources tW) eqn:RW|];
      try (cbn [head]; split; [assumption|exists (-1), 0; split; [reflexivity|assumption]]);
      (destruct (World.get_tile w (Unit.x u + 1) (Unit.y u + 0)) as [tE|] eqn:EE;
       [destruct (Tile.has_resources tE) eqn:RE|];
       try (cbn [head]; split; [assumption|exists 1, 0; split; [reflexivity|assumption]]);
       (cbn [head]; intros dx dy t Habs Hget;
        assert (Hcases : (dx = 0 /\ dy = -1) \/ (dx = 0 /\ dy = 1)
                         \/ (dx = -1 /\ dy = 0) \/ (dx = 1 /\ dy = 0)) by lia;
        destruct Hcases as [[-> ->]|[[-> ->]|[[-> ->]|[-> ->]]]];
        congruence)))).
Qed.

(** ** Exploring when nothing nearby is unexplored *)

Lemma fold_left_invariant_in {A B} (P : A -> Prop) (f : A -> B -> A) (l : list B) :
  forall a, P a -> (forall a b, In b l -> P a -> P (f a b)) -> P (fold_left f l a).
Proof.
  induction l as [|b l IH]; intros a Ha Hstep; simpl; auto.
  apply IH; [apply Hstep; simpl; auto|]. intros a' b' Hin. apply Hstep. simpl. auto.
Qed.

Lemma weights_add_zero (weights : list (string * Z)) (key : string) :
  Game.weights_add weights key 0 = weights.
Proof.
  unfold Game.weights_add. induction weights as [|[k w] ws IH]; simpl; auto.
  rewrite IH, Z.add_0_r. now destruct (String.eqb k key).
Qed.

(** X17: when no coordinate one or two steps from the unit in the four
    directions is on the map and unexplored (in particular before any
    [game_info] has set the map size), the look-ahead leaves all weights at
    0: a scout that knows a base draws among the three directions other than
    the one toward the base, every other unit draws among all four.  The
    third look-ahead step never counts, its weight being 3 - 3. *)
Theorem exploration_with_nothing_unexplored (g : Game.t) (u : Unit.t) (r : rng) :
  nothing_unexplored_near g u ->
  Game.get_strategic_exploration_direction g u r
  = random_choice
      (match Game.base_location g with
       | Some (bx, by_) =>
           if String.eqb (Unit.type u) "scout"
           then List.filter
                  (fun d => negb (String.eqb d (Game.get_direction_to_coordinates u bx by_)))
                  ["N"; "S"; "E"; "W"]
           else ["N"; "S"; "E"; "W"]
       | None => ["N"; "S"; "E"; "W"]
       end) r.
Proof.
  intros Hnear. unfold Game.get_strategic_exploration_direction.
  set (scan := fold_left _ [("N", (0, -1)); ("S", (0, 1)); ("E", (1, 0)); ("W", (-1, 0))] _).
  assert (Hscan : scan = [("N", 0); ("S", 0); ("E", 0); ("W", 0)]).
  { subst scan.
    apply (fold_left_invariant_in (fun ws => ws = [("N", 0); ("S", 0); ("E", 0); ("W", 0)]));
      [reflexivity|].
    intros ws [direction [dx dy]] Hdir ->.
    assert (Hoff : In (dx, dy) [(0, -1); (0, 1); (1, 0); (-1, 0)]).
    { simpl in Hdir. destruct Hdir as [E|[E|[E|[E|[]]]]]; inversion E; simpl; auto. }
    apply (fold_left_invariant_in (fun ws => ws = [("N", 0); ("S", 0); ("E", 0); ("W", 0)]));
      [reflexivity|].
    intros ws' distance Hdist ->.
    change (range2 1 4) with [1; 2; 3] in Hdist.
    assert (Hcases : In distance [1; 2] \/ distance = 3).
    { simpl in Hdist. simpl. intuition. }
    destruct Hcases as [Hd| ->].
    - specialize (Hnear dx dy distance Hoff Hd). unfold unexplored in Hnear.
      cbv zeta.
      destruct ((0 <=? Unit.x u + dx * distance) && (Unit.x u + dx * distance <? Game.map_width g)
                && (0 <=? Unit.y u + dy * distance)
                && (Unit.y u + dy * distance <? Game.map_height g)); [|reflexivity].
      destruct (World.get_tile (Game.world g) (Unit.x u + dx * distance)
                               (Unit.y u + dy * distance)) as [tile|];
        simpl in Hnear; [|discriminate].
      now rewrite Hnear.
    - cbv zeta. change (3 - 3) with 0. rewrite weights_add_zero.
      repeat match goal with
             | |- context [if ?b then _ else _] => destruct b
             | |- context [match ?o with Some _ => _ | None => _ end] => destruct o
             end; reflexivity. }
  rewrite Hscan.
  destruct (Game.base_location g) as [[bx by_]|]; [|reflexivity].
  destruct (String.eqb (Unit.type u) "scout"); [|reflexivity].
  unfold Game.get_direction_to_coordinates.
  destruct (direction_of_cases (bx - Unit.x u) (by_ - Unit.y u)) as [E|[E|[E|E]]];
    rewrite E; reflexivity.
Qed.

(** Before any [game_info], a scout at (3,3) that knows the base at (0,0)
    draws among S, E and W: with the draw 0 it heads south. *)
Lemma exploration_with_nothing_unexplored_witness :
  let scout := Scenario.unit_record 3 1 3 3 "scout" "idle" None in
  let g := Game.absorb Game.init
             (Scenario.message None (Some [Scenario.base_at_origin; scout]) None) in
  Game.get_strategic_exploration_direction g (Unit.init scout) [0%nat] = Ok ("S", []).
Proof.
  intros scout g.
  rewrite (exploration_with_nothing_unexplored g (Unit.init scout) [0%nat]).
  - reflexivity.
  - intros dx dy distance Hoff Hd. simpl in Hoff, Hd.
    destruct Hoff as [E|[E|[E|[E|[]]]]]; inversion E; subst;
      destruct Hd as [<-|[<-|[]]]; reflexivity.
Defined.

(** ** Scouts *)

(** X18: the scout rule never raises: [random.choice] is never given an
    empty list, so every idle scout gets exactly one MOVE in one of the four
    directions, and exactly one draw of the random source is used. *)
Theorem scout_always_moves (g : Game.t) (s : Unit.t) (c : list Command.t) (r : rng) :
  exists d,
    In d ["N"; "S"; "E"; "W"]
    /\ Game.scout_body g s c r = Ok (c ++ [CommandBuilder.move s d], tl r).
Proof.
  destruct (exploration_direction_total g s r) as (d & Hd & Hin).
  exists d. split; [exact Hin|].
  unfold Game.scout_body. unfold_monad. now rewrite Hd.
Qed.

(** ** The handler loop *)

Lemma serve_replies (lines : list Message.t) :
  forall g r,
    let '(_, replies, e) := NetworkHandler.serve g lines r in
    (length replies <= length lines)%nat
    /\ (e = None <-> length replies = length lines).
Proof.
  induction lines as [|m lines IH]; intros g r; simpl.
  - split; [lia|tauto].
  - destruct (Game.get_commands (Game.absorb g m) r) as [[response r']|e]; simpl.
    + specialize (IH (Game.absorb g m) r').
      destruct (NetworkHandler.serve (Game.absorb g m) lines r') as [[final replies] e'].
      simpl. destruct IH as [Hle Hiff]. split; [lia|].
      rewrite Hiff. split; intros; lia.
    + split; [lia|]. split; [discriminate|]. simpl. lia.
Qed.

(** Once a turn has raised, the lines that follow are not read. *)
Lemma serve_stops (lines : list Message.t) :
  forall g r final replies x,
    NetworkHandler.serve g lines r = (final, replies, Some x) ->
    forall more, NetworkHandler.serve g (lines ++ more) r = (final, replies, Some x).
Proof.
  induction lines as [|m lines IH]; intros g r final replies x; simpl.
  - discriminate.
  - destruct (Game.get_commands (Game.absorb g m) r) as [[response r']|e]; simpl.
    + destruct (NetworkHandler.serve (Game.absorb g m) lines r')
        as [[final' replies'] e'] eqn:E.
      intros H more. inversion H; subst.
      now rewrite (IH _ _ _ _ _ E more).
    + intros H more. exact H.
Qed.

(** The turn that raises is the one of the line after the last reply. *)
Lemma serve_failing_line (lines : list Message.t) :
  forall g r final replies x,
    NetworkHandler.serve g lines r = (final, replies, Some x) ->
    NetworkHandler.serve g (firstn (S (length replies)) lines) r
    = (final, replies, Some x)
    /\ exists g0,
        NetworkHandler.serve g (firstn (length replies) lines) r = (g0, replies, None).
Proof.
  induction lines as [|m lines IH]; intros g r final replies x.
  - discriminate.
  - cbn [NetworkHandler.serve Game.process_updates].
    destruct (Game.get_commands (Game.absorb g m) r) as [[response r']|e] eqn:Ecmd.
    + destruct (NetworkHandler.serve (Game.absorb g m) lines r')
        as [[final' replies'] e'] eqn:E.
      intros H. inversion H; subst.
      destruct (IH _ _ _ _ _ E) as (Hfail & g0 & Hbefore).
      cbn [length firstn NetworkHandler.serve Game.process_updates].
      rewrite Ecmd. cbn [length firstn] in Hfail. rewrite Hfail, Hbefore. eauto.
    + intros H. inversion H; subst.
      cbn [length firstn NetworkHandler.serve Game.process_updates].
      rewrite Ecmd. eauto.
Qed.

(** X19: the handler writes at most one reply per message read, one for
    each message exactly when no turn raises.  When a turn raises, it is the
    turn of the message after the last reply: the messages before it were
    all answered, it gets no reply, and it ends the loop, so that whatever
    messages follow it change neither the replies nor the session. *)
Theorem handler_replies_until_first_failure (lines : list Message.t) (r : rng) :
  let '(final, replies, e) := NetworkHandler.handle lines r in
  (length replies <= length lines)%nat
  /\ (e = None <-> length replies = length lines)
  /\ (forall x,
         e = Some x ->
         (forall more,
             NetworkHandler.handle (lines ++ more) r = (final, replies, Some x))
         /\ NetworkHandler.handle (firstn (S (length replies)) lines) r
            = (final, replies, Some x)
         /\ exists g0,
             NetworkHandler.handle (firstn (length replies) lines) r
             = (g0, replies, None)).
Proof.
  unfold NetworkHandler.handle.
  pose proof (serve_replies lines Game.init r) as Hcount.
  destruct (NetworkHandler.serve Game.init lines r) as [[final replies] e] eqn:E.
  destruct Hcount as [Hle Hiff]. split; [exact Hle|]. split; [exact Hiff|].
  intros x ->. split.
  - intros more. now apply serve_stops.
  - now apply serve_failing_line.
Qed.

(** A session of three messages whose second turn raises: one reply is
    written, and the third message is never read. *)
Example handler_stops_at_second_message :
  exists final reply x,
    NetworkHandler.handle
      [Scenario.opening; Scenario.tank_meets_enemy; Scenario.worker_with_base] []
    = (final, [reply], Some x)
    /\ dict_get (World.units_by_id (Game.world final)) 2 = None.
Proof.
  eexists _, _, _. split; [vm_compute; reflexivity|reflexivity].
Qed.

(** ** The type of a unit *)

Lemma update_units_type (batch : list UnitData.t) :
  forall w k u,
    dict_get (World.units_by_id w) k = Some u ->
    exists u',
      dict_get (World.units_by_id (World.update_units w batch)) k = Some u'
      /\ Unit.type u' = Unit.type u.
Proof.
  induction batch as [|d batch IH]; intros w k u Hk.
  - exists u. auto.
  - simpl. destruct (Z.eq_dec (UnitData.id d) k) as [Heq|Hne].
    + subst k. destruct (IH _ _ _ (update_unit_same w d u Hk)) as (u' & Hget & Hty).
      exists u'. split; auto.
    + assert (Hk' : dict_get (World.units_by_id (World.update_unit w d)) k = Some u)
        by (rewrite update_unit_other; auto).
      apply (IH _ _ _ Hk').
Qed.

(** X20: a unit keeps the type it was created with: across any batch, the
    records for its id never change it, whatever type they report. *)
Theorem unit_type_is_never_updated
        (w : World.t) (batch : list UnitData.t) (k : Z) (u : Unit.t) :
  dict_get (World.units_by_id w) k = Some u ->
  exists u',
    dict_get (World.units_by_id (World.update_units w batch)) k = Some u'
    /\ Unit.type u' = Unit.type u.
Proof. apply update_units_type. Qed.

(** Unit 2 is created as a worker and then reported as a base at (4,4): the
    world still holds a worker, and the session takes (4,4) for the base. *)
Lemma unit_type_is_never_updated_witness :
  let first := Scenario.unit_record 2 1 3 3 "worker" "idle" None in
  let later := Scenario.unit_record 2 1 4 4 "base" "idle" None in
  let g := Game.absorb Game.init (Scenario.message None (Some [first]) None) in
  (exists u',
      dict_get (World.units_by_id (World.update_units (Game.world g) [later])) 2 = Some u'
      /\ Unit.type u' = "worker")
  /\ Game.base_location (Game.absorb g (Scenario.message None (Some [later]) None))
     = Some (4, 4).
Proof.
  intros first later g. split; [|reflexivity].
  apply (unit_type_is_never_updated (Game.world g) [later] 2 (Unit.init first)).
  reflexivity.
Defined.
